(** * Gravity process management: routing, rendering and reconciliation

    A shallow embedding of [gravity/process_manager/__init__.py] and
    [gravity/process_manager/systemd.py].  Python objects become records,
    dictionaries become insertion-ordered association lists, sets become
    [gset]s, and the side effects of the code (files, external commands,
    logging, exceptions, process replacement) are threaded through a state
    and exception monad over an explicit [World]. *)

From Stdlib Require Import ZArith String Ascii.
From stdpp Require Import base tactics option list gmap sets strings pretty.

Local Open Scope Z_scope.

(** * Python values and helpers *)

(** ** Dictionaries

    A Python [dict] keeps its keys unique and iterates in insertion order;
    assigning to an existing key keeps the key's position. *)

Abbreviation dict V := (list (string * V)).

Section dict.
Context {V : Type}.

Fixpoint dict_get (k : string) (d : dict V) : option V :=
  match d with
  | [] => None
  | (k', v) :: d' => if decide (k = k') then Some v else dict_get k d'
  end.

(** [d[k] = v] *)
Fixpoint dict_set (k : string) (v : V) (d : dict V) : dict V :=
  match d with
  | [] => [(k, v)]
  | (k', v') :: d' =>
      if decide (k = k') then (k, v) :: d' else (k', v') :: dict_set k v d'
  end.

(** [d.update(other)] *)
Definition dict_update (d other : dict V) : dict V :=
  foldl (λ acc kv, dict_set kv.1 kv.2 acc) d other.

(** [a | b]: a new dictionary, [a] updated with [b]. *)
Definition dict_union (a b : dict V) : dict V := dict_update a b.

Definition dict_keys (d : dict V) : list string := d.*1.

(** [d.get(k, default)] *)
Definition dict_get_default (k : string) (default : V) (d : dict V) : V :=
  from_option id default (dict_get k d).
End dict.

(** ** Strings *)

Definition dquote : ascii := ascii_of_nat 34.
Definition squote : ascii := ascii_of_nat 39.
Definition backslash : ascii := ascii_of_nat 92.
Definition slash : ascii := ascii_of_nat 47.

Definition list_of_str (s : string) : list ascii := list_ascii_of_string s.
Definition str_of_list (l : list ascii) : string := string_of_list_ascii l.

(** [s.startswith(p)] *)
Definition startswith (s p : string) : bool := String.prefix p s.

(** [s.endswith(p)] *)
Definition endswith (s p : string) : bool :=
  String.prefix (String.rev p) (String.rev s).

(** [sep.join(l)] *)
Definition str_join (sep : string) (l : list string) : string :=
  String.concat sep l.

(** [c in s] for a character [c] *)
Definition str_contains (c : ascii) (s : string) : bool :=
  bool_decide (c ∈ list_of_str s).

Definition ascii_upper (c : ascii) : ascii :=
  let n := nat_of_ascii c in
  if bool_decide (97 ≤ n ≤ 122)%nat then ascii_of_nat (n - 32) else c.

Definition ascii_lower (c : ascii) : ascii :=
  let n := nat_of_ascii c in
  if bool_decide (65 ≤ n ≤ 90)%nat then ascii_of_nat (n + 32) else c.

(** [s.capitalize()], on ASCII letters: first character upper-cased, the
    rest lower-cased. *)
Definition capitalize (s : string) : string :=
  match s with
  | EmptyString => EmptyString
  | String c s' => String (ascii_upper c) (str_of_list (ascii_lower <$> list_of_str s'))
  end.

(** [s.rstrip(c)] for a single character [c] *)
Fixpoint lstrip_list (c : ascii) (l : list ascii) : list ascii :=
  match l with
  | [] => []
  | x :: l' => if decide (x = c) then lstrip_list c l' else l
  end.

Definition rstrip (c : ascii) (s : string) : string :=
  str_of_list (reverse (lstrip_list c (reverse (list_of_str s)))).

(** The characters after the last occurrence of [c] (all of them when [c]
    does not occur): [s[s.rfind(c) + 1:]]. *)
Fixpoint after_last (c : ascii) (l : list ascii) : list ascii :=
  match l with
  | [] => []
  | x :: l' =>
      if bool_decide (c ∈ l') then after_last c l'
      else if decide (x = c) then l' else l
  end.

(** [s.split(sep, 1)[1]] for a one-character separator, when [sep] occurs. *)
Fixpoint after_first (c : ascii) (l : list ascii) : option (list ascii) :=
  match l with
  | [] => None
  | x :: l' => if decide (x = c) then Some l' else after_first c l'
  end.

(** [s.splitlines()], for the line ends LF, CR and CRLF. *)
Fixpoint splitlines_go (cur : list ascii) (l : list ascii) : list string :=
  match l with
  | [] => match cur with [] => [] | _ => [str_of_list (reverse cur)] end
  | x :: l' =>
      if decide (x = ascii_of_nat 10) then
        str_of_list (reverse cur) :: splitlines_go [] l'
      else if decide (x = ascii_of_nat 13) then
        str_of_list (reverse cur) ::
          match l' with
          | y :: l'' => if decide (y = ascii_of_nat 10) then splitlines_go [] l''
                        else splitlines_go [] l'
          | [] => []
          end
      else splitlines_go (x :: cur) l'
  end.

Definition splitlines (s : string) : list string := splitlines_go [] (list_of_str s).

(** ** [os.path] on POSIX *)

(** [os.path.join(a, b)] *)
Definition path_join (a b : string) : string :=
  if startswith b "/" then b
  else if bool_decide (a = EmptyString) || endswith a "/" then a +:+ b
  else a +:+ "/" +:+ b.

(** [os.path.basename(p)] *)
Definition basename (p : string) : string :=
  str_of_list (after_last slash (list_of_str p)).

(** ** [shlex.quote] *)

Definition shlex_safe (c : ascii) : bool :=
  let n := nat_of_ascii c in
  bool_decide (48 ≤ n ≤ 57)%nat || bool_decide (65 ≤ n ≤ 90)%nat
  || bool_decide (97 ≤ n ≤ 122)%nat
  || bool_decide (c ∈ list_of_str "_@%+=:,./-").

Definition shlex_quote (s : string) : string :=
  if bool_decide (s = EmptyString) then String squote (String squote EmptyString)
  else if forallb shlex_safe (list_of_str s) then s
  else
    let esc := [squote; dquote; squote; dquote; squote] in
    str_of_list
      (squote :: (list_of_str s ≫= λ c, if decide (c = squote) then esc else [c])
         ++ [squote]).

(** ** Values

    The dynamically typed values that travel through attribute
    dictionaries, settings and format variables. *)

Inductive PyVal :=
| VNone
| VBool (b : bool)
| VInt (n : Z)
| VStr (s : string)
| VDict (items : list (string * PyVal)).

(** [bool(v)] *)
Definition py_truthy (v : PyVal) : bool :=
  match v with
  | VNone => false
  | VBool b => b
  | VInt n => negb (n =? 0)
  | VStr s => negb (bool_decide (s = EmptyString))
  | VDict items => negb (bool_decide (items = []))
  end.

Definition hex_digit (n : nat) : ascii :=
  if bool_decide (n < 10)%nat then ascii_of_nat (48 + n) else ascii_of_nat (87 + n).

(** [repr(s)] of a string of printable text and ASCII control characters. *)
Definition repr_str (s : string) : string :=
  let q := if str_contains squote s && negb (str_contains dquote s)
           then dquote else squote in
  let esc (c : ascii) : list ascii :=
    let n := nat_of_ascii c in
    if decide (c = q) then [backslash; c]
    else if decide (c = backslash) then [backslash; backslash]
    else if decide (n = 9%nat) then list_of_str "\t"
    else if decide (n = 10%nat) then list_of_str "\n"
    else if decide (n = 13%nat) then list_of_str "\r"
    else if bool_decide (n < 32)%nat || bool_decide (n = 127%nat) then
      backslash :: list_of_str "x" ++ [hex_digit (n / 16); hex_digit (n mod 16)]
    else [c] in
  str_of_list (q :: (list_of_str s ≫= esc) ++ [q]).

(** [repr(l)] of a list of strings *)
Definition repr_list (l : list string) : string :=
  "[" +:+ str_join ", " (repr_str <$> l) +:+ "]".

Fixpoint py_repr (v : PyVal) : string :=
  match v with
  | VNone => "None"
  | VBool b => if b then "True" else "False"
  | VInt n => pretty n
  | VStr s => repr_str s
  | VDict items =>
      "{" +:+ str_join ", "
        ((fix go (l : list (string * PyVal)) : list string :=
            match l with
            | [] => []
            | (k, x) :: l' => (repr_str k +:+ ": " +:+ py_repr x) :: go l'
            end) items) +:+ "}"
  end.

(** [str(v)], as an f-string or a [%s] renders it *)
Definition py_str (v : PyVal) : string :=
  match v with
  | VStr s => s
  | _ => py_repr v
  end.

Definition str_of_option (o : option string) : string :=
  match o with
  | Some s => s
  | None => "None"
  end.

(** * Data model *)

(** Modelled from the spec: [gravity.state.GracefulMethod], the strategy of
    a graceful restart (none, signal-based, rolling). *)
Inductive GracefulMethod := NONE | SIGHUP | ROLLING.

(** Modelled from the spec: [gravity.settings.ServiceCommandStyle].  The code
    only ever names [direct]; every other style takes the indirect branch. *)
Inductive ServiceCommandStyle := direct | indirect.

Global Instance GracefulMethod_eq_dec : EqDecision GracefulMethod.
Proof. solve_decision. Defined.
Global Instance ServiceCommandStyle_eq_dec : EqDecision ServiceCommandStyle.
Proof. solve_decision. Defined.

(** Modelled from the spec: a [gravity.state.Service], one named process
    definition within a config.  The three [get_*] fields are the service's
    own methods; [get_environment] hands out a fresh mapping on every call. *)
Module Service.
Record t := {
  service_name : string;
  service_type : string;
  config_type : string;
  count : Z;
  environment_from : option string;
  command_template : string;
  graceful_method : GracefulMethod;
  settings : dict PyVal;
  umask : option PyVal;
  add_virtualenv_to_path : bool;
  get_environment : dict PyVal;
  get_settings : dict PyVal → dict PyVal → PyVal;
  get_command_arguments : dict PyVal → dict PyVal → PyVal;
}.
End Service.

(** Modelled from the spec: a [Config], one configured instance. *)
Module Config.
Record t := {
  instance_name : string;
  config_type : string;
  process_manager : string;
  service_command_style : ServiceCommandStyle;
  services : list Service.t;
  attribs : dict PyVal;
  __file__ : string;
  galaxy_root : string;
  virtualenv : option string;
  memory_limit : PyVal;
  galaxy_user : option string;
  galaxy_group : option string;
}.

(** [config.service_command_style = style] *)
Definition set_service_command_style (style : ServiceCommandStyle) (c : t) : t :=
  {| instance_name := instance_name c;
     config_type := config_type c;
     process_manager := process_manager c;
     service_command_style := style;
     services := services c;
     attribs := attribs c;
     __file__ := __file__ c;
     galaxy_root := galaxy_root c;
     virtualenv := virtualenv c;
     memory_limit := memory_limit c;
     galaxy_user := galaxy_user c;
     galaxy_group := galaxy_group c |}.
End Config.

(** Config objects live in the registry and are passed around by
    reference: a reference is the object's position in [heap]. *)
Definition ConfigRef := nat.

(** * The world the code runs in *)

Inductive Exn :=
| Fatal (msg : string)             (* gravity.io.exception *)
| KeyError (key : string)
| TypeError (msg : string)
| AttributeError (attr : string)
| ValueError (msg : string)
| IndexError
| OSError (path : string)
| CalledProcessError (returncode : Z) (argv : list string).

(** A keyword argument handed to a backend method. *)
Inductive KwVal :=
| KConfigs (configs : list ConfigRef)
| KNames (names : list string)
| KVal (v : PyVal).

(** What the code does to the outside, in the order it does it. *)
Inductive Event :=
| Warn (msg : string)
| Info (msg : string)
| Debug (msg : string)
| Makedirs (path : string)
| Write (path contents : string)
| Unlink (path : string)
| Systemctl (argv : list string)
| Chdir (path : string)
| Call (pm func : string) (args : list PyVal) (kwargs : dict KwVal).

(** The part of the world the code only reads. *)
Record Host := {
  environ : dict string;                       (* os.environ *)
  pw_dir : string;                             (* home of the current user *)
  systemctl_result : list string → Z * string; (* argv ↦ exit status, stdout *)
  executable : string → bool;                  (* can execvpe run this file *)
}.

Record World := {
  host : Host;
  files : gmap string string;   (* regular files by path *)
  dirs : gset string;           (* directories that exist *)
  cwd : string;
  heap : list Config.t;         (* the registered Config objects *)
  _service_changes : option bool; (* the backend attribute; None: never set *)
  log : list Event;
}.

Definition set_files (f : gmap string string) (w : World) : World :=
  {| host := host w; files := f; dirs := dirs w; cwd := cwd w; heap := heap w;
     _service_changes := _service_changes w; log := log w |}.
Definition set_dirs (d : gset string) (w : World) : World :=
  {| host := host w; files := files w; dirs := d; cwd := cwd w; heap := heap w;
     _service_changes := _service_changes w; log := log w |}.
Definition set_cwd (p : string) (w : World) : World :=
  {| host := host w; files := files w; dirs := dirs w; cwd := p; heap := heap w;
     _service_changes := _service_changes w; log := log w |}.
Definition set_heap (h : list Config.t) (w : World) : World :=
  {| host := host w; files := files w; dirs := dirs w; cwd := cwd w; heap := h;
     _service_changes := _service_changes w; log := log w |}.
Definition set_service_changes (b : option bool) (w : World) : World :=
  {| host := host w; files := files w; dirs := dirs w; cwd := cwd w; heap := heap w;
     _service_changes := b; log := log w |}.
Definition add_log (e : Event) (w : World) : World :=
  {| host := host w; files := files w; dirs := dirs w; cwd := cwd w; heap := heap w;
     _service_changes := _service_changes w; log := log w ++ [e] |}.

(** ** The monad: state, exceptions and process replacement *)

(** The image a successful [os.execvpe] replaces the process with. *)
Record ProcessImage := {
  image_file : string;
  image_argv : list string;
  image_env : dict PyVal;
}.

Inductive Outcome (A : Type) :=
| Ret (a : A)
| Raise (e : Exn)
| Replaced (image : ProcessImage).
Global Arguments Ret {A} a.
Global Arguments Raise {A} e.
Global Arguments Replaced {A} image.

Definition M (A : Type) : Type := World → World * Outcome A.

Global Instance M_ret : MRet M := λ A a w, (w, Ret a).
Global Instance M_bind : MBind M := λ A B f m w,
  match m w with
  | (w', Ret a) => f a w'
  | (w', Raise e) => (w', Raise e)
  | (w', Replaced image) => (w', Replaced image)
  end.

Global Instance M_fmap : FMap M := λ A B f m, m ≫= λ a, mret (f a).

Definition raise {A} (e : Exn) : M A := λ w, (w, Raise e).
Definition gets {A} (f : World → A) : M A := λ w, (w, Ret (f w)).
Definition modify (f : World → World) : M unit := λ w, (f w, Ret tt).
Definition emit (e : Event) : M unit := modify (add_log e).

(** [try: m except E: handler], for the exceptions [catches] selects. *)
Definition try_except {A} (m : M A) (catches : Exn → bool) (handler : Exn → M A) : M A :=
  λ w, match m w with
       | (w', Raise e) => if catches e then handler e w' else (w', Raise e)
       | r => r
       end.

(** [for x in l: body x] *)
Fixpoint for_each {A} (l : list A) (body : A → M unit) : M unit :=
  match l with
  | [] => mret tt
  | x :: l' => body x;; for_each l' body
  end.

(** [[f x for x in l]] when [f] has effects *)
Fixpoint map_M {A B} (f : A → M B) (l : list A) : M (list B) :=
  match l with
  | [] => mret []
  | x :: l' => y ← f x; ys ← map_M f l'; mret (y :: ys)
  end.

(** A loop that carries an accumulator. *)
Fixpoint fold_M {A B} (f : B → A → M B) (acc : B) (l : list A) : M B :=
  match l with
  | [] => mret acc
  | x :: l' => acc' ← f acc x; fold_M f acc' l'
  end.

(** [try: m finally: cleanup].  A replaced process runs no cleanup; an
    exception of the cleanup takes the place of the outcome of [m]. *)
Definition try_finally {A} (m : M A) (cleanup : M unit) : M A :=
  λ w, match m w with
       | (w', Replaced image) => (w', Replaced image)
       | (w', outcome) =>
           match cleanup w' with
           | (w'', Ret _) => (w'', outcome)
           | (w'', Raise e) => (w'', Raise e)
           | (w'', Replaced image) => (w'', Replaced image)
           end
       end.

(** ** [gravity.io] *)

(** Modelled from the spec: [gravity.io.exception] reports a fatal user
    error and aborts the operation. *)
Definition exception {A} (msg : string) : M A := raise (Fatal msg).

(** Modelled from the spec: [gravity.io.warn], [info] and [debug] print and
    carry on. *)
Definition warn (msg : string) : M unit := emit (Warn msg).
Definition info (msg : string) : M unit := emit (Info msg).
Definition debug (msg : string) : M unit := emit (Debug msg).

(** ** Dictionary and list access that can raise *)

Definition getitem {V} (k : string) (d : dict V) : M V :=
  match dict_get k d with
  | Some v => mret v
  | None => raise (KeyError k)
  end.

Definition first {A} (l : list A) : M A :=
  match l with
  | x :: _ => mret x
  | [] => raise IndexError
  end.

Definition deref (r : ConfigRef) : M Config.t :=
  λ w, match heap w !! r with
       | Some c => (w, Ret c)
       | None => (w, Raise (AttributeError "dangling reference"))
       end.

Definition as_str (v : PyVal) : M string :=
  match v with
  | VStr s => mret s
  | _ => raise (TypeError "expected str")
  end.

Definition as_dict (v : PyVal) : M (dict PyVal) :=
  match v with
  | VDict d => mret d
  | _ => raise (TypeError "expected a mapping")
  end.

(** ** Library functions taken as an interface

    [str.format] and [shlex.split] are Python's own; the development is
    parametric in them. *)
Class PyLib := {
  str_format : string → dict PyVal → Exn + string;  (* template.format with keyword arguments vars *)
  shlex_split : string → Exn + list string;
}.

Definition lift {A} (r : Exn + A) : M A :=
  match r with
  | inl e => raise e
  | inr a => mret a
  end.

(** ** Files, directories and processes *)

(** [os.path.exists(path)] *)
Definition path_exists (path : string) : M bool :=
  gets (λ w, bool_decide (is_Some (files w !! path) ∨ path ∈ dirs w)).

(** [open(path).read()] *)
Definition read_file (path : string) : M string :=
  λ w, match files w !! path with
       | Some contents => (w, Ret contents)
       | None => (w, Raise (OSError path))
       end.

(** [open(path, "w").write(contents)] *)
Definition write_file (path contents : string) : M unit :=
  modify (λ w, add_log (Write path contents) (set_files (<[path := contents]> (files w)) w)).

(** [os.unlink(path)] *)
Definition unlink (path : string) : M unit :=
  λ w, match files w !! path with
       | Some _ => (add_log (Unlink path) (set_files (delete path (files w)) w), Ret tt)
       | None => (w, Raise (OSError path))
       end.

(** The names of the regular files directly inside [dir]. *)
Definition dir_entries (dir : string) (fs : gmap string string) : list string :=
  omap (λ p, let f := basename p in
             if bool_decide (f ≠ EmptyString ∧ path_join dir f = p) then Some f else None)
       (elements (dom fs)).

(** [os.listdir(dir)] *)
Definition listdir (dir : string) : M (list string) :=
  λ w, if bool_decide (dir ∈ dirs w) then (w, Ret (dir_entries dir (files w)))
       else (w, Raise (OSError dir)).

(** [os.chdir(path)] *)
Definition chdir (path : string) : M unit :=
  λ w, if bool_decide (path ∈ dirs w) then (add_log (Chdir path) (set_cwd path w), Ret tt)
       else (w, Raise (OSError path)).

(** [os.execvpe(file, argv, env)]: on success the process is replaced and
    nothing after the call runs. *)
Definition execvpe (file : string) (argv : list string) (env : dict PyVal) : M unit :=
  λ w, if executable (host w) file
       then (w, Replaced {| image_file := file; image_argv := argv; image_env := env |})
       else (w, Raise (OSError file)).

(** [os.environ.get(k)] *)
Definition getenv (k : string) : M (option string) :=
  gets (λ w, dict_get k (environ (host w))).

(** * [gravity.config_manager.ConfigManager] *)

Module ConfigManager.
Fixpoint select_refs (P : Config.t → bool) (i : nat) (l : list Config.t) : list ConfigRef :=
  match l with
  | [] => []
  | c :: l' => (if P c then [i] else []) ++ select_refs P (S i) l'
  end.

(** Modelled from the spec: the registry lookup of all registered instance
    configs, filtered by instance name when names are given. *)
Definition get_registered_configs (instances : option (list string)) : M (list ConfigRef) :=
  gets (λ w, select_refs
               (λ c, match instances with
                     | None => true
                     | Some names => bool_decide (Config.instance_name c ∈ names)
                     end) 0 (heap w)).

(** Modelled from the spec: the names of the registered instances. *)
Definition get_registered_instance_names : M (list string) :=
  gets (λ w, Config.instance_name <$> heap w).

(** Modelled from the spec: the service names configured in any instance. *)
Definition get_configured_service_names : M (gset string) :=
  gets (λ w, list_to_set (heap w ≫= λ c, Service.service_name <$> Config.services c)).

(** Modelled from the spec: the whole registry is single-instance. *)
Definition single_instance : M bool :=
  gets (λ w, bool_decide (length (heap w) = 1%nat)).
End ConfigManager.

(** * [BaseProcessExecutionEnvironment] *)

(** The object a method of the class runs on: its [state_dir] and the two
    methods a subclass supplies or overrides. *)
Module ExecutionEnvironment.
Record t := {
  state_dir : string;
  _service_environment_formatter : dict PyVal → dict PyVal → M PyVal;
  _service_default_path : M PyVal;
}.
End ExecutionEnvironment.
Abbreviation ExecutionEnvironment := ExecutionEnvironment.t.

Section BaseProcessExecutionEnvironment.
Context {lib : PyLib}.

(** The base class's [_service_default_path]: [os.environ["PATH"]]. *)
Definition base_service_default_path : M PyVal :=
  env ← gets (λ w, environ (host w));
  VStr <$> getitem "PATH" env.

Definition _service_log_file (log_dir program_name : string) : string :=
  path_join log_dir (program_name +:+ ".log").

Definition _service_program_name (instance_name : string) (service : Service.t) : string :=
  instance_name +:+ "_" +:+ Service.config_type service +:+ "_"
    +:+ Service.service_type service +:+ "_" +:+ Service.service_name service.

(** [d.get(k, {})] on a value that must be a mapping to have [get]. *)
Definition mapping_get (k : string) (v : PyVal) : M PyVal :=
  match v with
  | VDict d => mret (dict_get_default k (VDict []) d)
  | _ => raise (AttributeError "get")
  end.

Definition _service_environment (service : Service.t) (attribs : dict PyVal)
  : M (dict PyVal) :=
  let environment := Service.get_environment service in
  let environment_from :=
    match Service.environment_from service with
    | Some s => if bool_decide (s = EmptyString) then Service.service_type service else s
    | None => Service.service_type service
    end in
  inherited ← mapping_get environment_from (VDict attribs) ≫= mapping_get "environment";
  extra ← as_dict inherited;
  mret (dict_update environment extra).

Definition _service_format_vars (self : ExecutionEnvironment) (config : ConfigRef)
    (service : Service.t) (program_name pm_format_vars : PyVal) : M (dict PyVal) :=
  c ← deref config;
  let attribs := Config.attribs c in
  let virtualenv_dir := dict_get_default "virtualenv" VNone attribs in
  virtualenv_bin ←
    (if py_truthy virtualenv_dir
     then d ← as_str virtualenv_dir; mret (path_join d "bin" +:+ "/")
     else mret EmptyString);
  url ← getitem "galaxy_infrastructure_url" attribs;
  let format_vars : dict PyVal :=
    [ ("config_type", VStr (Service.config_type service));
      ("server_name", VStr (Service.service_name service));
      ("program_name", program_name);
      ("galaxy_infrastructure_url", url);
      ("galaxy_umask", from_option id (VStr "022") (Service.umask service));
      ("galaxy_conf", VStr (Config.__file__ c));
      ("galaxy_root", VStr (Config.galaxy_root c));
      ("virtualenv_bin", VStr virtualenv_bin);
      ("state_dir", VStr (ExecutionEnvironment.state_dir self)) ] in
  let format_vars :=
    dict_set "settings" (Service.get_settings service attribs format_vars) format_vars in
  (* update here from PM overrides *)
  overrides ← as_dict pm_format_vars;
  let format_vars := dict_update format_vars overrides in
  (* template the command template *)
  '(format_vars, environment) ←
    (if decide (Config.service_command_style c = direct) then
       let format_vars :=
         dict_set "command_arguments"
           (Service.get_command_arguments service attribs format_vars) format_vars in
       command ← lift (str_format (Service.command_template service) format_vars);
       let format_vars := dict_set "command" (VStr command) format_vars in
       (* template env vars *)
       environment ← _service_environment service attribs;
       virtualenv_bin ← getitem "virtualenv_bin" format_vars;
       environment ←
         (if py_truthy virtualenv_bin && Service.add_virtualenv_to_path service then
            default ← ExecutionEnvironment._service_default_path self;
            let path := dict_get_default "PATH" default environment in
            bin ← as_str virtualenv_bin;
            path ← as_str path;
            mret (dict_set "PATH" (VStr (str_join ":" [bin; path])) environment)
          else mret environment);
       mret (format_vars, environment)
     else
       let command :=
         "galaxyctl exec " +:+ Config.instance_name c +:+ " " +:+ py_str program_name in
       mret (dict_set "command" (VStr command) format_vars,
             [("GRAVITY_STATE_DIR", VStr "{state_dir}")]));
  formatted ← ExecutionEnvironment._service_environment_formatter self environment format_vars;
  mret (dict_set "environment" formatted format_vars).

(** A call [self._service_format_vars(config, service, *rest)].  The
    method declares two more positional parameters, [program_name] and
    [pm_format_vars], neither with a default: Python binds [rest] to them
    before the body runs and raises [TypeError] when the count is off. *)
Definition call_service_format_vars (self : ExecutionEnvironment) (config : ConfigRef)
    (service : Service.t) (rest : list PyVal) : M (dict PyVal) :=
  match rest with
  | [program_name; pm_format_vars] =>
      _service_format_vars self config service program_name pm_format_vars
  | [] | [_] =>
      raise (TypeError "_service_format_vars() missing required positional arguments")
  | _ => raise (TypeError "_service_format_vars() takes 5 positional arguments")
  end.
End BaseProcessExecutionEnvironment.

(** * [BaseProcessManager] *)

(** Update if contents differ *)
Definition _file_needs_update (path contents : string) : M bool :=
  present ← path_exists path;
  if present : bool then
    (* check first whether there are changes *)
    existing_contents ← read_file path;
    if decide (existing_contents = contents) then mret false else mret true
  else mret true.

(** The method has no [return]: its value is always [None]. *)
Definition _update_file (path contents name file_type : string) : M PyVal :=
  present ← path_exists path;
  differs ← (if present : bool then _file_needs_update path contents else mret false);
  if differs || negb present then
    let verb := if present then "Updating" else "Adding" in
    info (verb +:+ " " +:+ file_type +:+ " " +:+ name);;
    write_file path contents;;
    mret VNone
  else
    debug ("No changes to existing config for " +:+ file_type +:+ " " +:+ name
             +:+ " at " +:+ path);;
    mret VNone.

(** * [ProcessExecutor] *)

Module ProcessExecutor.
Section ProcessExecutor.
Context {lib : PyLib}.

(** [v.format]: only a string has the method. *)
Definition format_value (v : PyVal) (format_vars : dict PyVal) : M string :=
  match v with
  | VStr template => lift (str_format template format_vars)
  | _ => raise (AttributeError "format")
  end.

Definition _service_environment_formatter (environment format_vars : dict PyVal)
  : M PyVal :=
  VDict <$> map_M (λ '(k, v), s ← format_value v format_vars; mret (k, VStr s))
              environment.

Definition new (state_dir : string) : ExecutionEnvironment :=
  {| ExecutionEnvironment.state_dir := state_dir;
     ExecutionEnvironment._service_environment_formatter := _service_environment_formatter;
     ExecutionEnvironment._service_default_path := base_service_default_path |}.

(** [config.service_command_style = style] on the object [config] refers to. *)
Definition assign_service_command_style (config : ConfigRef)
    (style : ServiceCommandStyle) : M unit :=
  c ← deref config;
  modify (λ w, set_heap (<[config := Config.set_service_command_style style c]> (heap w)) w).

Definition exec (self : ExecutionEnvironment) (config : ConfigRef)
    (service : Service.t) : M unit :=
  let service_name := Service.service_name service in
  (* force generation of real commands *)
  assign_service_command_style config direct;;
  format_vars ← call_service_format_vars self config service [VStr service_name; VDict []];
  environment ← getitem (V:=PyVal) "environment" format_vars ≫= as_dict;
  quoted ← map_M (λ '(k, v), s ← as_str v; mret (k +:+ "=" +:+ shlex_quote s)) environment;
  let print_env := str_join " " quoted in
  command ← getitem "command" format_vars ≫= as_str;
  cmd ← lift (shlex_split command);
  os_environ ← gets (λ w, environ (host w));
  let env : dict PyVal :=
    dict_union environment ((λ kv : string * string, (kv.1, VStr kv.2)) <$> os_environ) in
  cwd ← getitem "galaxy_root" format_vars;
  info ("Working directory: " +:+ py_str cwd);;
  info ("Executing: " +:+ print_env +:+ " " +:+ command);;
  dir ← as_str cwd;
  chdir dir;;
  file ← first cmd;
  execvpe file cmd env.
End ProcessExecutor.
End ProcessExecutor.

(** * [ProcessManagerRouter] *)

Module ProcessManagerRouter.
(** A loaded backend, as far as the router deals with it: its declared
    name, the named parameters of each of its methods
    ([inspect.getargspec(...).args], [self] apart), and whether a call of a
    method with given arguments raises. *)
Record Backend := {
  name : string;
  argspec : string → list string;
  raises : string → list PyVal → dict KwVal → option Exn;
}.

Record t := {
  process_managers : dict Backend;
  _process_executor : ExecutionEnvironment;
}.

Section ProcessManagerRouter.
Context {lib : PyLib}.
(** [gravity.state.VALID_SERVICE_NAMES] *)
Variable VALID_SERVICE_NAMES : gset string.

(** [_load_pm_modules], given the backend objects it instantiates in the
    order it finds their classes: each is stored under its name. *)
Definition _load_pm_modules (found : list Backend) : dict Backend :=
  foldl (λ pms pm, dict_set (name pm) pm pms) [] found.

Definition new (state_dir : string) (found : list Backend) : t :=
  {| process_managers := _load_pm_modules found;
     _process_executor := ProcessExecutor.new state_dir |}.

(** The loop of [_instance_service_names] over the given names. *)
Fixpoint classify (registered_instance_names : list string)
    (configured_service_names : gset string)
    (instance_names service_names : list string) (names : list string)
  : M (list string * list string) :=
  match names with
  | [] => mret (instance_names, service_names)
  | name :: names' =>
      if bool_decide (name ∈ registered_instance_names) then
        classify registered_instance_names configured_service_names
          (instance_names ++ [name]) service_names names'
      else if bool_decide (name ∈ configured_service_names ∪ VALID_SERVICE_NAMES) then
        classify registered_instance_names configured_service_names
          instance_names (service_names ++ [name]) names'
      else
        warn ("Warning: Not a known instance or service name: " +:+ name);;
        classify registered_instance_names configured_service_names
          instance_names service_names names'
  end.

Definition _instance_service_names (names : option (list string))
  : M (list string * list string) :=
  registered_instance_names ← ConfigManager.get_registered_instance_names;
  configured_service_names ← ConfigManager.get_configured_service_names;
  match names with
  | Some ((_ :: _) as names) =>
      '(instance_names, service_names) ←
        classify registered_instance_names configured_service_names [] [] names;
      if bool_decide (instance_names = []) && bool_decide (service_names = []) then
        exception "No provided names are known instance or service names"
      else mret (instance_names, service_names)
  | _ => mret ([], [])
  end.

Definition exec (self : t) (instance_names : option (list string)) : M unit :=
  '(instance_names, service_names) ← _instance_service_names instance_names;
  single_instance ← ConfigManager.single_instance;
  instance_names ←
    (if bool_decide (length instance_names = 0%nat) && single_instance then mret None
     else if negb (bool_decide (length instance_names = 1%nat)) then
       exception "Only zero or one instance name can be provided"
     else mret (Some instance_names));
  config ← ConfigManager.get_registered_configs instance_names ≫= first;
  c ← deref config;
  let service_list := str_join ", " (Service.service_name <$> Config.services c) in
  (if negb (bool_decide (length service_names = 1%nat)) then
     exception ("Exactly one service name must be provided. Configured service(s): "
                  +:+ service_list)
   else mret tt);;
  service_name ← first service_names;
  let services :=
    filter (λ s, Service.service_name s = service_name) (Config.services c) in
  (if bool_decide (services = []) then
     exception ("Service '" +:+ service_name
                  +:+ "' is not configured. Configured service(s): " +:+ service_list)
   else mret tt);;
  service ← first services;
  ProcessExecutor.exec (_process_executor self) config service.

(** [configs_by_pm[config.process_manager].append(config)], with the
    [KeyError] fallback that starts a new list. *)
Definition group_config (configs_by_pm : dict (list ConfigRef)) (config : ConfigRef)
  : M (dict (list ConfigRef)) :=
  c ← deref config;
  let pm := Config.process_manager c in
  match dict_get pm configs_by_pm with
  | Some l => mret (dict_set pm (l ++ [config]) configs_by_pm)
  | None => mret (dict_set pm [config] configs_by_pm)
  end.

(** The call of [routed_func] on backend [pm] with the positional [args]
    and the keyword arguments [kwargs] *)
Definition call_routed (pm : Backend) (func : string) (args : list PyVal)
    (kwargs : dict KwVal) : M unit :=
  emit (Call (name pm) func args kwargs);;
  match raises pm func args kwargs with
  | Some e => raise e
  | None => mret tt
  end.

(** The dispatch loop of [_route]'s decorator; [kwargs] is the one
    dictionary that every iteration updates and passes on. *)
Fixpoint dispatch (self : t) (func : string) (args : list PyVal)
    (service_names : list string) (configs_by_pm : dict (list ConfigRef))
    (kwargs : dict KwVal) (pm_names : list string) : M unit :=
  match pm_names with
  | [] => mret tt
  | pm_name :: pm_names' =>
      pm ← getitem pm_name (process_managers self);
      let routed_func_params := argspec pm func in
      kwargs ←
        (if bool_decide ("configs" ∈ routed_func_params) then
           let pm_configs := dict_get_default pm_name [] configs_by_pm in
           instances ← map_M (λ r, Config.instance_name <$> deref r) pm_configs;
           debug ("Calling " +:+ func +:+ " in process manager " +:+ pm_name
                    +:+ " for instances: " +:+ repr_list instances);;
           mret (dict_set "configs" (KConfigs pm_configs) kwargs)
         else
           debug ("Calling " +:+ func +:+ " in process manager " +:+ pm_name
                    +:+ " for all instances");;
           mret kwargs);
      let kwargs :=
        if bool_decide ("service_names" ∈ routed_func_params)
        then dict_set "service_names" (KNames service_names) kwargs else kwargs in
      call_routed pm func args kwargs;;
      dispatch self func args service_names configs_by_pm kwargs pm_names'
  end.

(** Given instance names, populates kwargs with instance configs for the
    given PM, and calls the PM-routed function.  [func] is the name of
    the decorated method, which is never itself called. *)
Definition _route (func : string) (all_process_managers : bool) (self : t)
    (args : list PyVal) (instance_names : option (list string))
    (kwargs : dict KwVal) : M unit :=
  let pm_names := dict_keys (process_managers self) in
  '(instance_names, service_names) ← _instance_service_names instance_names;
  configs ← ConfigManager.get_registered_configs
              (match instance_names with [] => None | _ => Some instance_names end);
  configs_by_pm ← fold_M group_config [] configs;
  let pm_names := if all_process_managers then pm_names else dict_keys configs_by_pm in
  dispatch self func args service_names configs_by_pm kwargs pm_names.

Definition route := λ func, _route func false.
Definition route_to_all := λ func, _route func true.

Definition follow := route "follow".
Definition start := route "start".
Definition stop := route "stop".
Definition restart := route "restart".
Definition reload := route "reload".
Definition graceful := route "graceful".
Definition status := route "status".
Definition update := route_to_all "update".
Definition shutdown := route "shutdown".
Definition terminate := route "terminate".
Definition pm := route "pm".
End ProcessManagerRouter.
End ProcessManagerRouter.

(** * The context manager [process_manager] and the command [exec] *)

(** [with process_manager(...) as pm: body pm]: the router is built, the
    body runs, and [pm.terminate()] runs on the way out.  [found] are the
    backend objects the router's constructor loads. *)
Definition process_manager {lib : PyLib} {A} (VALID_SERVICE_NAMES : gset string)
    (state_dir : string) (found : list ProcessManagerRouter.Backend)
    (body : ProcessManagerRouter.t → M A) : M A :=
  let pm := ProcessManagerRouter.new state_dir found in
  try_finally (body pm) (ProcessManagerRouter.terminate VALID_SERVICE_NAMES pm [] None []).

(** [gravity/commands/cmd_exec.py] *)
Module cmd_exec.
End cmd_exec.

(** * The systemd backend *)

Definition newline : string := String (ascii_of_nat 10) EmptyString.

Definition SYSTEMD_SERVICE_TEMPLATE : string := ";
; This file is maintained by Gravity - CHANGES WILL BE OVERWRITTEN
;

[Unit]
Description={systemd_description}
After=network.target
After=time-sync.target
PartOf={systemd_target}

[Service]
UMask={galaxy_umask}
Type=simple
{systemd_user_group}
WorkingDirectory={galaxy_root}
TimeoutStartSec={settings[start_timeout]}
TimeoutStopSec={settings[stop_timeout]}
ExecStart={command}
{systemd_exec_reload}
{environment}
{systemd_memory_limit}
Restart=always

MemoryAccounting=yes
CPUAccounting=yes
BlockIOAccounting=yes

[Install]
WantedBy=multi-user.target
".

Definition SYSTEMD_TARGET_TEMPLATE : string := ";
; This file is maintained by Gravity - CHANGES WILL BE OVERWRITTEN
;

[Unit]
Description={systemd_description}
After=network.target
After=time-sync.target
Wants={systemd_target_wants}

[Install]
WantedBy=multi-user.target
".

(** converts between different formats *)
Module SystemdService.
Record t := {
  config : Config.t;
  service : Service.t;
  _use_instance_name : bool;
  unit_prefix : string;
  description : string;
}.

(** [SystemdService(config, service, use_instance_name)] *)
Definition new (config : Config.t) (service : Service.t) (use_instance_name : bool) : t :=
  let prefix_instance_name :=
    if use_instance_name then "-" +:+ Config.instance_name config else EmptyString in
  let description_instance_name :=
    if use_instance_name then " " +:+ Config.instance_name config else EmptyString in
  let description_process :=
    if 1 <? Service.count service then " (process %i)" else EmptyString in
  {| config := config;
     service := service;
     _use_instance_name := use_instance_name;
     unit_prefix := Service.config_type service +:+ prefix_instance_name +:+ "-"
                      +:+ Service.service_name service;
     description := capitalize (Config.config_type config) +:+ description_instance_name
                      +:+ " " +:+ Service.service_name service +:+ description_process |}.

Definition unit_file_name (self : t) : string :=
  let instance_count := Service.count (service self) in
  if 1 <? instance_count then unit_prefix self +:+ "@.service"
  else unit_prefix self +:+ ".service".

(** The representation when performing commands, after instance expansion *)
Definition unit_names (self : t) : list string :=
  let instance_count := Service.count (service self) in
  if 1 <? instance_count then
    (λ i : Z, unit_prefix self +:+ "@" +:+ pretty i +:+ ".service") <$> seqZ 0 instance_count
  else [unit_prefix self +:+ ".service"].
End SystemdService.

Module SystemdProcessManager.
(** The backend object.  [user_mode] is [not config_manager.is_root];
    [_use_instance_name] is read by the class and set outside it. *)
Record t := {
  state_dir : string;
  user_mode : bool;
  _use_instance_name : bool;
}.

(** [ProcessManager.systemd] *)
Definition name : string := "systemd".

Section SystemdProcessManager.
Context {lib : PyLib}.

(** [os.path.expanduser("~" + rest)] for [rest] starting with a slash:
    the home directory is [$HOME], or else the password database's. *)
Definition expanduser_home (h : Host) (rest : string) : string :=
  let userhome := rstrip slash (from_option id (pw_dir h) (dict_get "HOME" (environ h))) in
  userhome +:+ rest.

(** The value of the property [__systemd_unit_dir] on a host. *)
Definition systemd_unit_dir (self : t) (h : Host) : string :=
  let unit_path := dict_get "GRAVITY_SYSTEMD_UNIT_PATH" (environ h) in
  if py_truthy (from_option VStr VNone unit_path) then from_option id EmptyString unit_path
  else if negb (user_mode self) then "/etc/systemd/system"
  else expanduser_home h "/.config/systemd/user".

Definition __systemd_unit_dir (self : t) : M string :=
  gets (λ w, systemd_unit_dir self (host w)).

Definition __systemctl (self : t) (args : list string) (ignore_rc : option (list Z))
    (capture : bool) : M PyVal :=
  extra_args ← getenv "GRAVITY_SYSTEMCTL_EXTRA_ARGS";
  args ← (if py_truthy (from_option VStr VNone extra_args)
          then extra ← lift (shlex_split (from_option id EmptyString extra_args));
               mret (extra ++ args)
          else mret args);
  let args := if user_mode self then "--user" :: args else args in
  debug ("Calling systemctl with args: " +:+ repr_list args);;
  emit (Systemctl args);;
  '(returncode, output) ← gets (λ w, systemctl_result (host w) args);
  if returncode =? 0 then mret (if capture then VStr output else VInt 0)
  else
    match ignore_rc with
    | Some codes =>
        if bool_decide (returncode ∈ codes) then mret VNone
        else raise (CalledProcessError returncode ("systemctl" :: args))
    | None => raise (CalledProcessError returncode ("systemctl" :: args))
    end.

Definition _service_default_path (self : t) : M PyVal :=
  environ ← __systemctl self ["show-environment"] None true;
  match environ with
  | VStr text =>
      mret (match filter (λ line, startswith line "PATH=") (splitlines text) with
            | line :: _ =>
                VStr (str_of_list (from_option id [] (after_first "=" (list_of_str line))))
            | [] => VNone
            end)
  | _ => raise (AttributeError "splitlines")
  end.

Definition _service_environment_formatter (environment format_vars : dict PyVal)
  : M PyVal :=
  lines ← map_M (λ '(k, v), s ← ProcessExecutor.format_value v format_vars;
                             mret ("Environment=" +:+ k +:+ "=" +:+ shlex_quote s))
            environment;
  mret (VStr (str_join newline lines)).

(** The object as the base class's methods see it. *)
Definition as_environment (self : t) : ExecutionEnvironment :=
  {| ExecutionEnvironment.state_dir := state_dir self;
     ExecutionEnvironment._service_environment_formatter := _service_environment_formatter;
     ExecutionEnvironment._service_default_path := _service_default_path self |}.

(** this is used to stop a foreground supervisord in the supervisor PM, so
    it is a no-op here *)
Definition terminate (self : t) : M unit := mret tt.

Definition __target_unit_name (self : t) (config : Config.t) : string :=
  let instance_name :=
    if _use_instance_name self then "-" +:+ Config.instance_name config else EmptyString in
  Config.config_type config +:+ instance_name +:+ ".target".

(** The systemd-specific format vars [__update_service] builds, from the
    virtualenv it settled on. *)
Definition systemd_format_vars (self : t) (config : Config.t) (service : Service.t)
    (systemd_service : SystemdService.t) (virtualenv_dir : option string) : dict PyVal :=
  let memory_limit :=
    let m := dict_get_default "memory_limit" VNone (Service.settings service) in
    if py_truthy m then m else Config.memory_limit config in
  let memory_limit :=
    if py_truthy memory_limit
    then VStr ("MemoryLimit=" +:+ py_str memory_limit +:+ "G") else memory_limit in
  let exec_reload :=
    if decide (Service.graceful_method service = SIGHUP)
    then VStr "ExecReload=/bin/kill -HUP $MAINPID" else VNone in
  let vars : dict PyVal :=
    [ ("virtualenv_bin",
       VStr (if py_truthy (from_option VStr VNone virtualenv_dir)
             then path_join (from_option id EmptyString virtualenv_dir) "bin" +:+ "/"
             else EmptyString));
      ("instance_number", VStr "%i");
      ("systemd_user_group", VStr EmptyString);
      ("systemd_exec_reload", if py_truthy exec_reload then exec_reload else VStr EmptyString);
      ("systemd_memory_limit", if py_truthy memory_limit then memory_limit else VStr EmptyString);
      ("systemd_description", VStr (SystemdService.description systemd_service));
      ("systemd_target", VStr (__target_unit_name self config)) ] in
  if negb (user_mode self) then
    let user := "User=" +:+ str_of_option (Config.galaxy_user config) in
    dict_set "systemd_user_group"
      (VStr (match Config.galaxy_group config with
             | Some group => user +:+ newline +:+ "Group=" +:+ group
             | None => user
             end)) vars
  else vars.

(** The first part of [__update_service], up to the rendered contents:
    the path of the unit file and what it is to hold. *)
Definition render_service (self : t) (config : ConfigRef) (service : Service.t)
    (systemd_service : SystemdService.t) : M (string * string) :=
  c ← deref config;
  (* under supervisor we expect that gravity is installed in the galaxy
     venv and the venv is active when gravity runs, but under systemd this
     is not the case. we do assume $VIRTUAL_ENV is the galaxy venv if
     running as an unprivileged user, though. *)
  let virtualenv_dir := Config.virtualenv c in
  environ_virtual_env ← getenv "VIRTUAL_ENV";
  virtualenv_dir ←
    (if negb (py_truthy (from_option VStr VNone virtualenv_dir)) && user_mode self
        && py_truthy (from_option VStr VNone environ_virtual_env) then
       warn ("Assuming Galaxy virtualenv is value of $VIRTUAL_ENV: "
               +:+ str_of_option environ_virtual_env);;
       warn "Set `virtualenv` in Gravity configuration to override";;
       mret environ_virtual_env
     else if negb (py_truthy (from_option VStr VNone virtualenv_dir)) then
       exception "The `virtualenv` Gravity config option must be set when using the systemd process manager"
     else mret virtualenv_dir);
  (* systemd-specific format vars *)
  let systemd_format_vars :=
    systemd_format_vars self c service systemd_service virtualenv_dir in
  format_vars ← call_service_format_vars (as_environment self) config service
                  [VDict systemd_format_vars];
  command ← getitem "command" format_vars;
  format_vars ←
    (match command with
     | VStr text =>
         if negb (startswith text "/") then
           bin ← getitem "virtualenv_bin" format_vars;
           mret (dict_set "command" (VStr (py_str bin +:+ text)) format_vars)
         else mret format_vars
     | _ => raise (AttributeError "startswith")
     end);
  let unit_file := SystemdService.unit_file_name systemd_service in
  unit_dir ← __systemd_unit_dir self;
  let conf := path_join unit_dir unit_file in
  let template := SYSTEMD_SERVICE_TEMPLATE in
  contents ← lift (str_format template format_vars);
  mret (conf, contents).

Definition __update_service (self : t) (config : ConfigRef) (service : Service.t)
    (systemd_service : SystemdService.t) : M string :=
  '(conf, contents) ← render_service self config service systemd_service;
  let unit_file := SystemdService.unit_file_name systemd_service in
  _update_file conf contents unit_file "systemd unit";;
  mret conf.

(** [os.makedirs(dir)], where the directory already existing is fine. *)
Definition makedirs_exist_ok (dir : string) : M unit :=
  modify (λ w, if bool_decide (dir ∈ dirs w) then w
               else add_log (Makedirs dir) (set_dirs ({[dir]} ∪ dirs w) w)).

(** The loop of [_process_config] over the services of the config. *)
Fixpoint process_services (self : t) (config : ConfigRef) (c : Config.t) (clean : bool)
    (intended_configs : gset string) (service_units : list string)
    (services : list Service.t) : M (gset string * list string) :=
  match services with
  | [] => mret (intended_configs, service_units)
  | service :: services' =>
      let systemd_service := SystemdService.new c service (_use_instance_name self) in
      if clean then
        unit_dir ← __systemd_unit_dir self;
        process_services self config c clean
          ({[path_join unit_dir (SystemdService.unit_file_name systemd_service)]}
             ∪ intended_configs)
          service_units services'
      else
        conf ← __update_service self config service systemd_service;
        process_services self config c clean ({[conf]} ∪ intended_configs)
          (service_units ++ SystemdService.unit_names systemd_service) services'
  end.

Definition _process_config (self : t) (config : ConfigRef) (clean : bool)
  : M (gset string) :=
  unit_dir ← __systemd_unit_dir self;
  makedirs_exist_ok unit_dir;;
  c ← deref config;
  '(intended_configs, service_units) ←
    process_services self config c clean ∅ [] (Config.services c);
  (* create systemd target *)
  let target_unit_name := __target_unit_name self c in
  let target_conf := path_join unit_dir target_unit_name in
  let description := capitalize (Config.config_type c) in
  let format_vars : dict PyVal :=
    [ ("systemd_description",
       VStr (if _use_instance_name self
             then description +:+ " " +:+ Config.instance_name c else description));
      ("systemd_target_wants", VStr (str_join " " service_units)) ] in
  contents ← lift (str_format SYSTEMD_TARGET_TEMPLATE format_vars);
  updated ←
    (if negb clean
     then _update_file target_conf contents target_unit_name "systemd unit"
     else mret (VBool false));
  let intended_configs := {[target_conf]} ∪ intended_configs in
  (if py_truthy updated
   then __systemctl self ["enable"; target_conf] None false;; mret tt
   else mret tt);;
  mret intended_configs.

(** The names [_process_configs] takes for artifacts of this backend.
    FIXME: should use config_type, but that's per-service *)
Definition is_present_config (f : string) : bool :=
  startswith f "galaxy-" && (endswith f ".service" || endswith f ".target")
  || bool_decide (f = "galaxy.target").

(** The body of the removal loop of [_process_configs], for one file. *)
Definition remove_file (self : t) (file : string) : M unit :=
  let unit_name := basename file in
  __systemctl self ["disable"; "--now"; unit_name] None false;;
  info ("Removing systemd config " +:+ file);;
  unlink file;;
  modify (set_service_changes (Some true)).

(** The second half of [_process_configs]: with the intended set
    computed, remove what the directory holds and should not. *)
Definition remove_unintended (self : t) (intended_configs : gset string) (clean : bool)
  : M unit :=
  unit_dir ← __systemd_unit_dir self;
  dir_exists ← path_exists unit_dir;
  (* the unit dir might not exist if $GRAVITY_SYSTEMD_UNIT_PATH is set
     (e.g. for tests), but this is fine if there are no intended configs *)
  if bool_decide (intended_configs = ∅) && negb dir_exists then mret tt
  else
    entries ← listdir unit_dir;
    let present_configs : gset string :=
      list_to_set (path_join unit_dir <$> filter (λ f, is_present_config f = true) entries) in
    (* if cleaning, then intended configs are actually *unintended* configs *)
    let unintended_configs :=
      if clean then present_configs ∩ intended_configs
      else present_configs ∖ intended_configs in
    for_each (elements unintended_configs) (remove_file self).

(** The first half of [_process_configs]: every config is processed and
    the intended sets are united. *)
Definition process_all (self : t) (configs : list ConfigRef) (clean : bool)
  : M (gset string) :=
  fold_M (λ intended_configs config,
            new_configs ← _process_config self config clean;
            mret (intended_configs ∪ new_configs)) ∅ configs.

Definition _process_configs (self : t) (configs : list ConfigRef) (clean : bool) : M unit :=
  intended_configs ← process_all self configs clean;
  remove_unintended self intended_configs clean.

(** [glob(os.path.join(dir, prefix + "*" + suffix))] *)
Definition glob_star (dir prefix suffix : string) : M (list string) :=
  gets (λ w, path_join dir <$>
               filter (λ f, startswith f prefix = true ∧ endswith f suffix = true
                            ∧ (String.length prefix + String.length suffix
                               ≤ String.length f)%nat)
                 (dir_entries dir (files w))).

(** [glob(os.path.join(dir, name))] for a literal [name] *)
Definition glob_literal (dir name : string) : M (list string) :=
  gets (λ w, path_join dir <$> filter (λ f, f = name) (dir_entries dir (files w))).

Definition update (self : t) (configs : list ConfigRef) (force clean : bool) : M unit :=
  (if force then
     for_each configs (λ config,
       c ← deref config;
       unit_dir ← __systemd_unit_dir self;
       services ← glob_star unit_dir (Config.config_type c +:+ "-") ".service";
       targets ← glob_star unit_dir (Config.config_type c +:+ "-") ".target";
       target ← glob_literal unit_dir (Config.config_type c +:+ ".target");
       let units := services ++ targets ++ target in
       if bool_decide (units = []) then mret tt
       else
         info ("Removing systemd units due to --force option:" +:+ newline
                 +:+ str_join newline units);;
         for_each units (λ u, __systemctl self ["disable"; basename u] None false;; mret tt);;
         for_each units unlink;;
         modify (set_service_changes (Some true)))
   else mret tt);;
  _process_configs self configs clean;;
  changes ← gets _service_changes;
  match changes with
  | None => raise (AttributeError "_service_changes")
  | Some true => __systemctl self ["daemon-reload"] None false;; mret tt
  | Some false => debug "No service changes, daemon-reload not performed"
  end.
End SystemdProcessManager.
(** ** The operations of the backend

    Four things the operations use are not part of this code and are taken
    as they come: [subprocess.check_call] on a command line other than
    systemctl's, [gravity.io.error], the [rolling_restart] method of a
    service and the registry's [get_configs]. *)
Section operations.
Context {lib : PyLib}.
Variable check_call : list string → M unit.
Variable error : string → M unit.
Variable rolling_restart : Service.t → list (M PyVal) → M unit.
Variable get_configs : string → M (list ConfigRef).

Definition __journalctl (self : t) (args : list string) : M unit :=
  let args := if user_mode self then "--user" :: args else args in
  debug ("Calling journalctl with args: " +:+ repr_list args);;
  check_call ("journalctl" :: args).

(** [configs] and [service_names] default to [None]: iterating [None]
    raises, and [None] is as false as the empty list. *)
Definition __unit_names (self : t) (configs : option (list ConfigRef))
    (service_names : option (list string)) (use_target include_services : bool)
  : M (list string) :=
  let given := from_option id [] service_names in
  match configs with
  | None => raise (TypeError "'NoneType' object is not iterable")
  | Some configs =>
      fold_M (λ unit_names config,
                c ← deref config;
                let services := Config.services c in
                let '(unit_names, services) :=
                  if bool_decide (given = []) && use_target then
                    (unit_names ++ [__target_unit_name self c],
                     if negb include_services then [] else services)
                  else if negb (bool_decide (given = [])) then
                    (unit_names, filter (λ s, Service.service_name s ∈ given) services)
                  else (unit_names, services) in
                let systemd_services :=
                  (λ s, SystemdService.new c s (_use_instance_name self)) <$> services in
                mret (unit_names ++ (systemd_services ≫= SystemdService.unit_names)))
        [] configs
  end.

Definition follow (self : t) (configs : option (list ConfigRef))
    (service_names : option (list string)) (quiet : bool) : M unit :=
  unit_names ← __unit_names self configs service_names false false;
  let u_args :=
    zip (replicate (length unit_names) "-u") unit_names ≫= λ sl, [sl.1; sl.2] in
  __journalctl self ("-f" :: u_args).

Definition start (self : t) (configs : option (list ConfigRef))
    (service_names : option (list string)) : M unit :=
  unit_names ← __unit_names self configs service_names true false;
  __systemctl self ("start" :: unit_names) None false;;
  mret tt.

Definition stop (self : t) (configs : option (list ConfigRef))
    (service_names : option (list string)) : M unit :=
  unit_names ← __unit_names self configs service_names true false;
  __systemctl self ("stop" :: unit_names) None false;;
  mret tt.

Definition restart (self : t) (configs : option (list ConfigRef))
    (service_names : option (list string)) : M unit :=
  unit_names ← __unit_names self configs service_names true false;
  __systemctl self ("restart" :: unit_names) None false;;
  mret tt.

Definition __graceful_service (self : t) (c : Config.t) (service : Service.t)
    (service_names : option (list string)) : M unit :=
  let systemd_service := SystemdService.new c service (_use_instance_name self) in
  if decide (Service.graceful_method service = ROLLING) then
    let restart_callbacks :=
      (λ u, __systemctl self ["reload-or-restart"; u] None false)
        <$> SystemdService.unit_names systemd_service in
    rolling_restart service restart_callbacks
  else
    __systemctl self ("reload-or-restart" :: SystemdService.unit_names systemd_service)
      None false;;
    info ("Restarted: " +:+ str_join ", " (SystemdService.unit_names systemd_service)).

(** reload-or-restart on a target does a restart on its services, so we
    use the services directly *)
Definition graceful (self : t) (configs : option (list ConfigRef))
    (service_names : option (list string)) : M unit :=
  let given := from_option id [] service_names in
  match configs with
  | None => raise (TypeError "'NoneType' object is not iterable")
  | Some configs =>
      for_each configs (λ config,
        c ← deref config;
        let services :=
          if negb (bool_decide (given = []))
          then filter (λ s, Service.service_name s ∈ given) (Config.services c)
          else Config.services c in
        for_each services (λ service, __graceful_service self c service service_names))
  end.

Definition status (self : t) (configs : option (list ConfigRef))
    (service_names : option (list string)) : M unit :=
  unit_names ← __unit_names self configs service_names true true;
  try_except
    (__systemctl self ("status" :: "--lines=0" :: unit_names) (Some [3]) false;; mret tt)
    (λ exc, match exc with CalledProcessError _ _ => true | _ => false end)
    (λ exc, match exc with
            | CalledProcessError 4 _ =>
                error "Some expected systemd units were not found, did you forget to run `galaxyctl update`?"
            | _ => raise exc
            end).

Definition shutdown (self : t) : M unit :=
  if _use_instance_name self then
    configs ← get_configs name;
    targets ← map_M (λ config, c ← deref config;
                               mret ("galaxy-" +:+ Config.instance_name c +:+ ".target"))
                configs;
    __systemctl self ("stop" :: targets) None false;;
    mret tt
  else
    __systemctl self ["stop"; "galaxy.target"] None false;;
    mret tt.

(** Direct pass-thru to process manager. *)
Definition pm (self : t) (args : list string) : M unit :=
  __systemctl self args None false;;
  mret tt.
End operations.

End SystemdProcessManager.

(** * An implementation of the library interface

    Enough of [str.format] and [shlex.split] to run the model on concrete
    inputs: named fields [{name}] and one item access [{name[key]}] with the
    doubled-brace escapes, and POSIX word splitting with quotes and
    backslashes. *)

Module Reference.
Definition lbrace : ascii := ascii_of_nat 123.
Definition rbrace : ascii := ascii_of_nat 125.
Definition lbracket : ascii := ascii_of_nat 91.
Definition rbracket : ascii := ascii_of_nat 93.

Fixpoint before (c : ascii) (l : list ascii) : list ascii :=
  match l with
  | [] => []
  | x :: l' => if decide (x = c) then [] else x :: before c l'
  end.

Definition lookup_field (vars : dict PyVal) (field : list ascii) : Exn + string :=
  let name := str_of_list (before lbracket field) in
  if bool_decide (name = EmptyString) then inl IndexError
  else
    match dict_get name vars with
    | None => inl (KeyError name)
    | Some v =>
        match after_first lbracket field with
        | None => inr (py_str v)
        | Some rest =>
            let key := str_of_list (before rbracket rest) in
            match v with
            | VDict d =>
                match dict_get key d with
                | Some x => inr (py_str x)
                | None => inl (KeyError key)
                end
            | _ => inl (TypeError "object is not subscriptable")
            end
        end
    end.

Fixpoint format_go (vars : dict PyVal) (field : option (list ascii)) (out : list ascii)
    (l : list ascii) : Exn + string :=
  match l, field with
  | [], None => inr (str_of_list (reverse out))
  | [], Some _ => inl (ValueError "expected '}' before end of string")
  | c :: l', None =>
      if decide (c = lbrace) then
        match l' with
        | c' :: l'' =>
            if decide (c' = lbrace) then format_go vars None (lbrace :: out) l''
            else format_go vars (Some []) out l'
        | [] => inl (ValueError "Single '{' encountered in format string")
        end
      else if decide (c = rbrace) then
        match l' with
        | c' :: l'' =>
            if decide (c' = rbrace) then format_go vars None (rbrace :: out) l''
            else inl (ValueError "Single '}' encountered in format string")
        | [] => inl (ValueError "Single '}' encountered in format string")
        end
      else format_go vars None (c :: out) l'
  | c :: l', Some f =>
      if decide (c = rbrace) then
        match lookup_field vars (reverse f) with
        | inl e => inl e
        | inr s => format_go vars None (reverse (list_of_str s) ++ out) l'
        end
      else format_go vars (Some (c :: f)) out l'
  end.

Definition format (template : string) (vars : dict PyVal) : Exn + string :=
  format_go vars None [] (list_of_str template).

Inductive SplitState :=
| Space
| Word
| Quote (q : ascii)
| Escape (back : option ascii).

Definition is_whitespace (c : ascii) : bool :=
  bool_decide (nat_of_ascii c ∈ [32; 9; 13; 10]%nat).

Fixpoint split_go (state : SplitState) (token : list ascii) (tokens : list string)
    (l : list ascii) : Exn + list string :=
  let emit := tokens ++ [str_of_list (reverse token)] in
  match l with
  | [] =>
      match state with
      | Space => inr tokens
      | Word => inr emit
      | Quote _ => inl (ValueError "No closing quotation")
      | Escape _ => inl (ValueError "No escaped character")
      end
  | c :: l' =>
      match state with
      | Space =>
          if is_whitespace c then split_go Space [] tokens l'
          else if decide (c = backslash) then split_go (Escape None) [] tokens l'
          else if decide (c = squote ∨ c = dquote) then split_go (Quote c) [] tokens l'
          else split_go Word [c] tokens l'
      | Word =>
          if is_whitespace c then split_go Space [] emit l'
          else if decide (c = squote ∨ c = dquote) then split_go (Quote c) token tokens l'
          else if decide (c = backslash) then split_go (Escape None) token tokens l'
          else split_go Word (c :: token) tokens l'
      | Quote q =>
          if decide (c = q) then split_go Word token tokens l'
          else if decide (c = backslash ∧ q = dquote)
               then split_go (Escape (Some q)) token tokens l'
          else split_go (Quote q) (c :: token) tokens l'
      | Escape back =>
          match back with
          | Some q =>
              if decide (c ≠ backslash ∧ c ≠ q)
              then split_go (Quote q) (c :: backslash :: token) tokens l'
              else split_go (Quote q) (c :: token) tokens l'
          | None => split_go Word (c :: token) tokens l'
          end
      end
  end.

Definition split (s : string) : Exn + list string :=
  split_go Space [] [] (list_of_str s).

Definition lib : PyLib := {| str_format := format; shlex_split := split |}.
End Reference.

(** * Concrete inputs *)

Module Examples.
Definition gunicorn : Service.t :=
  {| Service.service_name := "gunicorn";
     Service.service_type := "gunicorn";
     Service.config_type := "galaxy";
     Service.count := 1;
     Service.environment_from := None;
     Service.command_template := "{virtualenv_bin}gunicorn {command_arguments}";
     Service.graceful_method := SIGHUP;
     Service.settings := [];
     Service.umask := None;
     Service.add_virtualenv_to_path := true;
     Service.get_environment := [("GALAXY_CONFIG_FILE", VStr "{galaxy_conf}")];
     Service.get_settings := λ _ _, VDict [("start_timeout", VInt 15); ("stop_timeout", VInt 65)];
     Service.get_command_arguments := λ _ _, VStr "--bind localhost:8080" |}.

Definition celery : Service.t :=
  {| Service.service_name := "celery";
     Service.service_type := "celery";
     Service.config_type := "galaxy";
     Service.count := 3;
     Service.environment_from := None;
     Service.command_template := "{virtualenv_bin}celery worker";
     Service.graceful_method := NONE;
     Service.settings := [("memory_limit", VInt 8)];
     Service.umask := None;
     Service.add_virtualenv_to_path := false;
     Service.get_environment := [];
     Service.get_settings := λ _ _, VDict [("start_timeout", VInt 10); ("stop_timeout", VInt 10)];
     Service.get_command_arguments := λ _ _, VStr EmptyString |}.

Definition make_config (instance_name process_manager : string)
    (virtualenv : option string) (services : list Service.t) : Config.t :=
  {| Config.instance_name := instance_name;
     Config.config_type := "galaxy";
     Config.process_manager := process_manager;
     Config.service_command_style := indirect;
     Config.services := services;
     Config.attribs :=
       [("galaxy_infrastructure_url", VStr "http://localhost:8080");
        ("log_dir", VStr "/srv/galaxy/log")]
       ++ match virtualenv with
          | Some dir => [("virtualenv", VStr dir)]
          | None => []
          end;
     Config.__file__ := "/srv/galaxy/config/galaxy.yml";
     Config.galaxy_root := "/srv/galaxy/server";
     Config.virtualenv := virtualenv;
     Config.memory_limit := VNone;
     Config.galaxy_user := Some "galaxy";
     Config.galaxy_group := None |}.

Definition main : Config.t :=
  make_config "main" "systemd" (Some "/srv/galaxy/venv") [gunicorn; celery].
Definition test : Config.t :=
  make_config "test" "supervisor" None [gunicorn].

Definition a_host : Host :=
  {| environ := [("PATH", "/usr/bin:/bin"); ("HOME", "/root")];
     pw_dir := "/root";
     systemctl_result := λ _, (0, EmptyString);
     executable := λ _, true |}.

Definition a_world (configs : list Config.t) (f : gmap string string) (d : gset string)
  : World :=
  {| host := a_host; files := f; dirs := d; cwd := "/"; heap := configs;
     _service_changes := None; log := [] |}.

Definition systemd_root : SystemdProcessManager.t :=
  {| SystemdProcessManager.state_dir := "/srv/galaxy/gravity";
     SystemdProcessManager.user_mode := false;
     SystemdProcessManager._use_instance_name := false |}.

Import ProcessManagerRouter.

(** A backend with the method signatures of the systemd backend, whose
    every method returns. *)
Definition a_backend (pm_name : string) : Backend :=
  {| name := pm_name;
     argspec := λ func,
       if bool_decide (func ∈ ["shutdown"; "terminate"; "pm"]) then []
       else if bool_decide (func = "update") then ["configs"; "force"; "clean"]
       else if bool_decide (func = "follow") then ["configs"; "service_names"; "quiet"]
       else ["configs"; "service_names"];
     raises := λ _ _ _, None |}.

Definition a_router : ProcessManagerRouter.t :=
  new (lib := Reference.lib) "/srv/galaxy/gravity" [a_backend "supervisor"; a_backend "systemd"].

(** The backend of an unprivileged user, with instance names in use. *)
Definition systemd_user : SystemdProcessManager.t :=
  {| SystemdProcessManager.state_dir := "/home/galaxy/.config/galaxy-gravity";
     SystemdProcessManager.user_mode := true;
     SystemdProcessManager._use_instance_name := true |}.


(** The reports application: a service and a config of another config
    type. *)
Definition reports_service : Service.t :=
  {| Service.service_name := "reports";
     Service.service_type := "gunicorn";
     Service.config_type := "reports";
     Service.count := 1;
     Service.environment_from := None;
     Service.command_template := "{virtualenv_bin}gunicorn {command_arguments}";
     Service.graceful_method := SIGHUP;
     Service.settings := [];
     Service.umask := None;
     Service.add_virtualenv_to_path := true;
     Service.get_environment := [];
     Service.get_settings := λ _ _, VDict [("start_timeout", VInt 15); ("stop_timeout", VInt 65)];
     Service.get_command_arguments := λ _ _, VStr "--bind localhost:9001" |}.

Definition reports : Config.t :=
  {| Config.instance_name := "reports";
     Config.config_type := "reports";
     Config.process_manager := "systemd";
     Config.service_command_style := indirect;
     Config.services := [reports_service];
     Config.attribs := [("galaxy_infrastructure_url", VStr "http://localhost:8080")];
     Config.__file__ := "/srv/galaxy/config/reports.yml";
     Config.galaxy_root := "/srv/galaxy/server";
     Config.virtualenv := Some "/srv/galaxy/venv";
     Config.memory_limit := VNone;
     Config.galaxy_user := Some "galaxy";
     Config.galaxy_group := None |}.


(** A backend with the method signatures of the systemd backend, whose
    every method fails. *)
Definition a_failing_backend (pm_name : string) (e : Exn) : ProcessManagerRouter.Backend :=
  {| name := pm_name;
     argspec := argspec (a_backend pm_name);
     raises := λ _ _ _, Some e |}.

(** A backend whose methods take no arguments at all. *)
Definition a_plain_backend (pm_name : string) : ProcessManagerRouter.Backend :=
  {| name := pm_name;
     argspec := λ _, [];
     raises := λ _ _ _, None |}.

End Examples.

(** * The vocabulary of the properties *)

(** ** Frames: a computation that leaves a part of the world alone *)

Definition keeps {X A} (proj : World → X) (m : M A) : Prop :=
  ∀ w, proj (m w).1 = proj w.

(** What [_update_file] logs when it leaves the file alone. *)
Definition no_changes (path name file_type : string) : Event :=
  Debug ("No changes to existing config for " +:+ file_type +:+ " " +:+ name
           +:+ " at " +:+ path).


(** The files an execution wrote, and the daemon-reload calls it issued. *)
Definition written (w : World) : list string :=
  omap (λ e, match e with Write path _ => Some path | _ => None end) (log w).



(** The files an execution removed, in order. *)
Definition unlinked (w : World) : list string :=
  omap (λ e, match e with Unlink path => Some path | _ => None end) (log w).

(** Several events logged in a row. *)
Definition emit_all (events : list Event) (w : World) : World :=
  foldl (λ w e, add_log e w) w events.

(** The registry's view of a token. *)
Definition registered_names (w : World) : list string := Config.instance_name <$> heap w.

Definition configured_names (w : World) : gset string :=
  list_to_set (heap w ≫= λ c, Service.service_name <$> Config.services c).

Definition is_instance_token (w : World) (name : string) : Prop :=
  name ∈ registered_names w.

Definition is_service_token (VALID_SERVICE_NAMES : gset string) (w : World) (name : string) : Prop :=
  (name ∉ registered_names w) ∧ name ∈ (configured_names w ∪ VALID_SERVICE_NAMES).

Definition is_unmatched (VALID_SERVICE_NAMES : gset string) (w : World) (name : string) : Prop :=
  (name ∉ registered_names w) ∧ name ∉ (configured_names w ∪ VALID_SERVICE_NAMES).

Global Instance is_instance_token_dec w name : Decision (is_instance_token w name).
Proof. unfold is_instance_token. apply _. Defined.
Global Instance is_service_token_dec VALID w name : Decision (is_service_token VALID w name).
Proof. unfold is_service_token. apply _. Defined.
Global Instance is_unmatched_dec VALID w name : Decision (is_unmatched VALID w name).
Proof. unfold is_unmatched. apply _. Defined.

Definition unknown_name (name : string) : Event :=
  Warn ("Warning: Not a known instance or service name: " +:+ name).


Definition only_one_instance : Exn := Fatal "Only zero or one instance name can be provided".

Definition one_service_required (service_list : string) : Exn :=
  Fatal ("Exactly one service name must be provided. Configured service(s): " +:+ service_list).

Definition service_not_configured (service_name service_list : string) : Exn :=
  Fatal ("Service '" +:+ service_name +:+ "' is not configured. Configured service(s): "
           +:+ service_list).




Definition is_call_to (pm : string) (e : Event) : Prop :=
  match e with
  | Call pm' _ _ _ => pm' = pm
  | _ => False
  end.

Global Instance is_call_to_dec pm e : Decision (is_call_to pm e).
Proof. destruct e; simpl; apply _. Defined.

(** The calls an execution made to backend [pm], among [events]. *)
Definition calls_to (pm : string) (events : list Event) : list Event :=
  filter (is_call_to pm) events.

(** A backend the dispatch can reach: loaded under its own name, and its
    method [func] returns. *)
Definition reachable (self : ProcessManagerRouter.t) (func : string) (pm_name : string) : Prop :=
  ∃ pm, dict_get pm_name (ProcessManagerRouter.process_managers self) = Some pm
        ∧ ProcessManagerRouter.name pm = pm_name
        ∧ ∀ a k, ProcessManagerRouter.raises pm func a k = None.




(** A path names an artifact of this backend inside [dir]. *)
Definition artifact_in (dir p : string) : Prop :=
  basename p ≠ EmptyString ∧ path_join dir (basename p) = p
  ∧ SystemdProcessManager.is_present_config (basename p) = true.

Global Instance artifact_in_dec dir p : Decision (artifact_in dir p).
Proof. unfold artifact_in. apply _. Defined.

(** The present artifacts: the files in the unit directory whose names
    follow the backend's naming convention. *)
Definition present_configs (self : SystemdProcessManager.t) (w : World) : gset string :=
  let dir := SystemdProcessManager.systemd_unit_dir self (host w) in
  if decide (dir ∈ dirs w) then filter (artifact_in dir) (dom (files w)) else ∅.

(** ** The control utility *)

(** The command lines an execution handed to systemctl, in order. *)
Definition systemctl_calls (w : World) : list (list string) :=
  omap (λ e, match e with Systemctl argv => Some argv | _ => None end) (log w).

(** The arguments [$GRAVITY_SYSTEMCTL_EXTRA_ARGS] asks for. *)
Definition extra_args {lib : PyLib} (h : Host) : Exn + list string :=
  match dict_get "GRAVITY_SYSTEMCTL_EXTRA_ARGS" (environ h) with
  | Some s => if bool_decide (s = EmptyString) then inr [] else shlex_split s
  | None => inr []
  end.

(** The command line of a call: the user-mode flag, the extra arguments,
    then the arguments of the call. *)
Definition systemctl_argv (self : SystemdProcessManager.t) (extra args : list string)
  : list string :=
  (if SystemdProcessManager.user_mode self then ["--user"] else []) ++ extra ++ args.

(** How a call ends, by the exit status of the command. *)
Definition systemctl_outcome (result : Z * string) (ignore_rc : option (list Z))
    (capture : bool) (argv : list string) : Outcome PyVal :=
  if result.1 =? 0 then Ret (if capture then VStr result.2 else VInt 0)
  else if bool_decide (result.1 ∈ from_option id [] ignore_rc) then Ret VNone
  else Raise (CalledProcessError result.1 ("systemctl" :: argv)).

(** The world after a call of the control utility. *)
Definition after_systemctl (argv : list string) (w : World) : World :=
  add_log (Systemctl argv)
    (add_log (Debug ("Calling systemctl with args: " +:+ repr_list argv)) w).

(** The referenced configs are registered: [cs] are the objects behind
    [configs]. *)
Definition registered (w : World) (configs : list ConfigRef) (cs : list Config.t) : Prop :=
  Forall2 (λ r c, heap w !! r = Some c) configs cs.

(** The unit names of a service of a config. *)
Definition service_units (self : SystemdProcessManager.t) (c : Config.t) (s : Service.t)
  : list string :=
  SystemdService.unit_names
    (SystemdService.new c s (SystemdProcessManager._use_instance_name self)).















(** The section of the instance attributes a service inherits its
    environment from. *)
Definition environment_section (service : Service.t) : string :=
  match Service.environment_from service with
  | Some s => if bool_decide (s = EmptyString) then Service.service_type service else s
  | None => Service.service_type service
  end.

(** ** The format variables of a service *)

(** The format variables [_service_format_vars] starts from, before the
    overrides of the process manager: [url] is the infrastructure URL of
    the attributes and [virtualenv_bin] the directory of the virtualenv's
    programs, or the empty string. *)
Definition base_format_vars (self : ExecutionEnvironment) (c : Config.t) (service : Service.t)
    (program_name url : PyVal) (virtualenv_bin : string) : dict PyVal :=
  let format_vars : dict PyVal :=
    [ ("config_type", VStr (Service.config_type service));
      ("server_name", VStr (Service.service_name service));
      ("program_name", program_name);
      ("galaxy_infrastructure_url", url);
      ("galaxy_umask", from_option id (VStr "022") (Service.umask service));
      ("galaxy_conf", VStr (Config.__file__ c));
      ("galaxy_root", VStr (Config.galaxy_root c));
      ("virtualenv_bin", VStr virtualenv_bin);
      ("state_dir", VStr (ExecutionEnvironment.state_dir self)) ] in
  dict_set "settings" (Service.get_settings service (Config.attribs c) format_vars) format_vars.


(** The command of a service in indirect style. *)
Definition indirect_command (c : Config.t) (program_name : PyVal) : string :=
  "galaxyctl exec " +:+ Config.instance_name c +:+ " " +:+ py_str program_name.

(** ** Returning and replacing the process *)

(** A computation that never hands a value back: it raises, or the
    process is replaced. *)
Definition never_returns {A} (m : M A) : Prop := ∀ w a, (m w).2 ≠ Ret a.

(** A computation that never replaces the process. *)
Definition never_replaces {A} (m : M A) : Prop := ∀ w image, (m w).2 ≠ Replaced image.

(** The inherited environment, as the values [os.execvpe] is given. *)
Definition inherited_environment (h : Host) : dict PyVal :=
  (λ kv : string * string, (kv.1, VStr kv.2)) <$> environ h.

(** ** Dispatch *)

(** The keyword arguments a backend method is called with, from the
    ones the dispatch loop holds when it comes to the backend. *)
Definition passed_kwargs (pm : ProcessManagerRouter.Backend) (func pm_name : string)
    (service_names : list string) (configs_by_pm : dict (list ConfigRef))
    (kwargs : dict KwVal) : dict KwVal :=
  let kwargs :=
    if bool_decide ("configs" ∈ ProcessManagerRouter.argspec pm func)
    then dict_set "configs" (KConfigs (dict_get_default pm_name [] configs_by_pm)) kwargs
    else kwargs in
  if bool_decide ("service_names" ∈ ProcessManagerRouter.argspec pm func)
  then dict_set "service_names" (KNames service_names) kwargs
  else kwargs.

(** The configs grouped under the backends all refer to registered
    configs. *)
Definition grouped_configs_registered (w : World) (configs_by_pm : dict (list ConfigRef))
  : Prop :=
  ∀ pm l, dict_get pm configs_by_pm = Some l → Forall (λ r, is_Some (heap w !! r)) l.

(** * Proof tools *)

(** Run the first computation of a bind when it reduces to an outcome. *)
Ltac mstep :=
  match goal with
  | |- context [(?m ≫= ?f) ?w] =>
      let r := eval hnf in (m w) in
      lazymatch r with
      | (?w', Ret ?a) => change ((m ≫= f) w) with (f a w'); cbv beta
      | (?w', Raise ?e) => change ((m ≫= f) w) with (@pair World _ w' (Raise e))
      | (?w', Replaced ?i) => change ((m ≫= f) w) with (@pair World _ w' (Replaced i))
      end
  end.

(** * Reasoning about the monad *)

Lemma bind_Ret {A B} (m : M A) (f : A → M B) w w' a :
  m w = (w', Ret a) → (m ≫= f) w = f a w'.
Proof. intros Hm. unfold mbind, M_bind. by rewrite Hm. Qed.

Lemma bind_Raise {A B} (m : M A) (f : A → M B) w w' e :
  m w = (w', Raise e) → (m ≫= f) w = (w', Raise e).
Proof. intros Hm. unfold mbind, M_bind. by rewrite Hm. Qed.

Lemma bind_Replaced {A B} (m : M A) (f : A → M B) w w' image :
  m w = (w', Replaced image) → (m ≫= f) w = (w', Replaced image).
Proof. intros Hm. unfold mbind, M_bind. by rewrite Hm. Qed.

Lemma bind_ret_l {A B} (a : A) (f : A → M B) w : (mret a ≫= f) w = f a w.
Proof. done. Qed.

Lemma bind_gets {A B} (g : World → A) (f : A → M B) w : (gets g ≫= f) w = f (g w) w.
Proof. done. Qed.

Lemma bind_modify {B} (g : World → World) (f : unit → M B) w :
  (modify g ≫= f) w = f tt (g w).
Proof. done. Qed.

Lemma bind_raise {A B} (e : Exn) (f : A → M B) w : (raise e ≫= f) w = (w, Raise e).
Proof. done. Qed.

Lemma bind_assoc {A B C} (m : M A) (f : A → M B) (g : B → M C) w :
  ((m ≫= f) ≫= g) w = (m ≫= λ a, f a ≫= g) w.
Proof. unfold mbind, M_bind. by destruct (m w) as [w' [a|e|image]]. Qed.

Lemma fmap_M_unfold {A B} (f : A → B) (m : M A) w :
  (f <$> m) w = (m ≫= λ a, mret (f a)) w.
Proof. done. Qed.


Section keeps.
Context {X : Type} (proj : World → X).

Lemma keeps_ret {A} (a : A) : keeps proj (mret a).
Proof. done. Qed.

Lemma keeps_raise {A} e : keeps proj (raise (A:=A) e).
Proof. done. Qed.

Lemma keeps_exception {A} msg : keeps proj (exception (A:=A) msg).
Proof. done. Qed.

Lemma keeps_gets {A} (g : World → A) : keeps proj (gets g).
Proof. done. Qed.

Lemma keeps_lift {A} (r : Exn + A) : keeps proj (lift r).
Proof. by destruct r. Qed.

Lemma keeps_bind {A B} (m : M A) (f : A → M B) :
  keeps proj m → (∀ a, keeps proj (f a)) → keeps proj (m ≫= f).
Proof.
  intros Hm Hf w. unfold mbind, M_bind.
  specialize (Hm w). destruct (m w) as [w' [a|e|image]]; simpl in *; [|done..].
  by rewrite Hf.
Qed.

Lemma keeps_fmap {A B} (g : A → B) (m : M A) : keeps proj m → keeps proj (g <$> m).
Proof. intros Hm. apply keeps_bind; [done|]. intros a. apply keeps_ret. Qed.

Lemma keeps_modify (g : World → World) :
  (∀ w, proj (g w) = proj w) → keeps proj (modify g).
Proof. intros Hg w. apply Hg. Qed.

Lemma keeps_map_M {A B} (f : A → M B) l : (∀ x, keeps proj (f x)) → keeps proj (map_M f l).
Proof.
  intros Hf. induction l as [|x l IH]; simpl; [apply keeps_ret|].
  apply keeps_bind; [done|]. intros y. apply keeps_bind; [done|]. intros ys. apply keeps_ret.
Qed.

Lemma keeps_for_each {A} (f : A → M unit) l :
  (∀ x, keeps proj (f x)) → keeps proj (for_each l f).
Proof.
  intros Hf. induction l as [|x l IH]; simpl; [apply keeps_ret|].
  by apply keeps_bind.
Qed.

Lemma keeps_fold_M {A B} (f : B → A → M B) acc l :
  (∀ b x, keeps proj (f b x)) → keeps proj (fold_M f acc l).
Proof.
  intros Hf. revert acc. induction l as [|x l IH]; intros acc; simpl; [apply keeps_ret|].
  by apply keeps_bind.
Qed.

Lemma keeps_deref r : keeps proj (deref r).
Proof. intros w. unfold deref. by destruct (heap w !! r). Qed.

Lemma keeps_getitem {V} k (d : dict V) : keeps proj (getitem k d).
Proof. unfold getitem. destruct (dict_get k d); [apply keeps_ret|apply keeps_raise]. Qed.

Lemma keeps_first {A} (l : list A) : keeps proj (first l).
Proof. destruct l; [apply keeps_raise|apply keeps_ret]. Qed.

Lemma keeps_as_str v : keeps proj (as_str v).
Proof. destruct v; first [apply keeps_ret|apply keeps_raise]. Qed.

Lemma keeps_as_dict v : keeps proj (as_dict v).
Proof. destruct v; first [apply keeps_ret|apply keeps_raise]. Qed.

Lemma keeps_mapping_get k v : keeps proj (mapping_get k v).
Proof. destruct v; first [apply keeps_ret|apply keeps_raise]. Qed.

Lemma keeps_path_exists p : keeps proj (path_exists p).
Proof. done. Qed.

Lemma keeps_getenv k : keeps proj (getenv k).
Proof. done. Qed.

Lemma keeps_read_file p : keeps proj (read_file p).
Proof. intros w. unfold read_file. by destruct (files w !! p). Qed.

Lemma keeps_execvpe file argv env : keeps proj (execvpe file argv env).
Proof. intros w. unfold execvpe. by destruct (executable (host w) file). Qed.

Lemma keeps_listdir d : keeps proj (listdir d).
Proof. intros w. unfold listdir. by case_bool_decide. Qed.
End keeps.

(** One step of a frame proof: split a bind, or case on what is scrutinised. *)
Ltac keeps_step :=
  lazymatch goal with
  | |- keeps _ (mbind _ _) => apply keeps_bind; [|intros ?]
  | |- keeps _ (fmap _ _) => apply keeps_fmap
  | |- keeps _ (mret _) => apply keeps_ret
  | |- keeps _ (raise _) => apply keeps_raise
  | |- keeps _ (exception _) => apply keeps_exception
  | |- keeps _ (gets _) => apply keeps_gets
  | |- keeps _ (lift _) => apply keeps_lift
  | |- keeps _ (deref _) => apply keeps_deref
  | |- keeps _ (getitem _ _) => apply keeps_getitem
  | |- keeps _ (first _) => apply keeps_first
  | |- keeps _ (as_str _) => apply keeps_as_str
  | |- keeps _ (as_dict _) => apply keeps_as_dict
  | |- keeps _ (mapping_get _ _) => apply keeps_mapping_get
  | |- keeps _ (path_exists _) => apply keeps_path_exists
  | |- keeps _ (getenv _) => apply keeps_getenv
  | |- keeps _ (read_file _) => apply keeps_read_file
  | |- keeps _ (execvpe _ _ _) => apply keeps_execvpe
  | |- keeps _ (listdir _) => apply keeps_listdir
  | |- keeps _ (map_M _ _) => apply keeps_map_M; intros ?
  | |- keeps _ (for_each _ _) => apply keeps_for_each; intros ?
  | |- keeps _ (fold_M _ _ _) => apply keeps_fold_M; intros ? ?
  | |- keeps _ (match ?x with _ => _ end) => destruct x
  end.

Ltac keeps_auto := repeat first [keeps_step | solve [auto]].

(** Logging touches the log only. *)
Lemma keeps_emit {X} (proj : World → X) e :
  (∀ w, proj (add_log e w) = proj w) → keeps proj (emit e).
Proof. intros Hp. by apply keeps_modify. Qed.

Lemma keeps_heap_emit e : keeps heap (emit e).
Proof. by apply keeps_emit. Qed.
Lemma keeps_files_emit e : keeps files (emit e).
Proof. by apply keeps_emit. Qed.
Lemma keeps_dirs_emit e : keeps dirs (emit e).
Proof. by apply keeps_emit. Qed.
Lemma keeps_host_emit e : keeps host (emit e).
Proof. by apply keeps_emit. Qed.
Lemma keeps_changes_emit e : keeps _service_changes (emit e).
Proof. by apply keeps_emit. Qed.

Lemma keeps_heap_chdir p : keeps heap (chdir p).
Proof. intros w. unfold chdir. by case_bool_decide. Qed.

(** * Replication naming *)

(** C7: a service with count 1 has the non-templated unit file name
    prefix.service and exactly that one unit name; a service with count 3
    has the templated unit file name prefix@.service and exactly the three
    unit names prefix@0.service, prefix@1.service and prefix@2.service. *)
Theorem replication_naming (config : Config.t) (service : Service.t)
    (use_instance_name : bool) :
  let s := SystemdService.new config service use_instance_name in
  let prefix := SystemdService.unit_prefix s in
  (Service.count service = 1 →
   SystemdService.unit_file_name s = prefix +:+ ".service" ∧
   SystemdService.unit_names s = [prefix +:+ ".service"]) ∧
  (Service.count service = 3 →
   SystemdService.unit_file_name s = prefix +:+ "@.service" ∧
   SystemdService.unit_names s =
     [prefix +:+ "@0.service"; prefix +:+ "@1.service"; prefix +:+ "@2.service"]).
Proof.
  intros s prefix. unfold SystemdService.unit_file_name, SystemdService.unit_names.
  subst s prefix. simpl. split; intros ->; simpl; split; reflexivity.
Qed.

Lemma replication_naming_witness :
  SystemdService.unit_names (SystemdService.new Examples.main Examples.gunicorn false)
    = ["galaxy-gunicorn.service"] ∧
  SystemdService.unit_file_name (SystemdService.new Examples.main Examples.celery true)
    = "galaxy-main-celery@.service" ∧
  SystemdService.unit_names (SystemdService.new Examples.main Examples.celery true)
    = ["galaxy-main-celery@0.service"; "galaxy-main-celery@1.service";
       "galaxy-main-celery@2.service"].
Proof.
  split; [|split].
  - apply (proj1 (replication_naming Examples.main Examples.gunicorn false)). reflexivity.
  - apply (proj2 (replication_naming Examples.main Examples.celery true)). reflexivity.
  - apply (proj2 (replication_naming Examples.main Examples.celery true)). reflexivity.
Defined.

(** * Idempotent writes *)



Lemma read_file_Some path contents w :
  files w !! path = Some contents → read_file path w = (w, Ret contents).
Proof. intros Hf. unfold read_file. by rewrite Hf. Qed.

Lemma deref_Some r c w : heap w !! r = Some c → deref r w = (w, Ret c).
Proof. intros Hr. unfold deref. by rewrite Hr. Qed.


Lemma _update_file_same path contents name file_type w :
  files w !! path = Some contents →
  _update_file path contents name file_type w
    = (add_log (no_changes path name file_type) w, Ret VNone).
Proof.
  intros Hf. unfold _update_file. mstep.
  rewrite bool_decide_eq_true_2 by (left; eauto).
  unfold _file_needs_update. rewrite bind_assoc. mstep.
  rewrite bool_decide_eq_true_2 by (left; eauto).
  rewrite bind_assoc. erewrite bind_Ret by (by apply read_file_Some).
  rewrite decide_True by done. reflexivity.
Qed.

Lemma _update_file_returns path contents name file_type w :
  path ∉ dirs w →
  ∃ w1, _update_file path contents name file_type w = (w1, Ret VNone)
        ∧ files w1 !! path = Some contents.
Proof.
  intros Hd. destruct (files w !! path) as [old|] eqn:Hf.
  - destruct (decide (old = contents)) as [->|Hne].
    + eexists. split; [by apply _update_file_same|done].
    + unfold _update_file. mstep.
      rewrite bool_decide_eq_true_2 by (left; eauto).
      unfold _file_needs_update. rewrite bind_assoc. mstep.
      rewrite bool_decide_eq_true_2 by (left; eauto).
      rewrite bind_assoc. erewrite bind_Ret by (by apply read_file_Some).
      rewrite decide_False by done. eexists. split; [reflexivity|].
      simpl. apply lookup_insert_eq.
  - unfold _update_file. mstep.
    rewrite bool_decide_eq_false_2; last first.
    { intros [[? ?]|?]; [congruence|done]. }
    eexists. split; [reflexivity|]. simpl. apply lookup_insert_eq.
Qed.



Lemma _update_file_post path contents name file_type w w1 v :
  _update_file path contents name file_type w = (w1, Ret v) →
  files w1 !! path = Some contents.
Proof.
  intros Hrun. destruct (decide (path ∈ dirs w)) as [Hd|Hd].
  - destruct (files w !! path) as [old|] eqn:Hf.
    + destruct (decide (old = contents)) as [->|Hne].
      * rewrite _update_file_same in Hrun by done. by simplify_eq.
      * revert Hrun. unfold _update_file. mstep.
        rewrite bool_decide_eq_true_2 by (left; eauto).
        unfold _file_needs_update. rewrite bind_assoc. mstep.
        rewrite bool_decide_eq_true_2 by (left; eauto).
        rewrite bind_assoc. erewrite bind_Ret by (by apply read_file_Some).
        rewrite decide_False by done. intros [= <- _]. apply lookup_insert_eq.
    + revert Hrun. unfold _update_file. mstep.
      rewrite bool_decide_eq_true_2 by (by right).
      unfold _file_needs_update. rewrite bind_assoc. mstep.
      rewrite bool_decide_eq_true_2 by (by right).
      rewrite bind_assoc. erewrite bind_Raise by (unfold read_file; by rewrite Hf).
      done.
  - destruct (_update_file_returns path contents name file_type w Hd) as (w2 & Hw2 & Hf).
    rewrite Hw2 in Hrun. by simplify_eq.
Qed.



(** * The executor and the config it is given *)

Ltac keeps_go :=
  repeat first
    [ keeps_step
    | apply keeps_emit; intros; reflexivity
    | lazymatch goal with
      | |- keeps _ (warn _) => apply keeps_emit; intros; reflexivity
      | |- keeps _ (info _) => apply keeps_emit; intros; reflexivity
      | |- keeps _ (debug _) => apply keeps_emit; intros; reflexivity
      | |- keeps _ (if ?b then _ else _) => destruct b
      end
    | solve [auto] ].

Section executor_frame.
Context {lib : PyLib} {X : Type} (proj : World → X).

Lemma keeps_format_value v format_vars :
  keeps proj (ProcessExecutor.format_value v format_vars).
Proof. unfold ProcessExecutor.format_value. keeps_go. Qed.

Lemma keeps_base_service_default_path : keeps proj base_service_default_path.
Proof. unfold base_service_default_path. keeps_go. Qed.

Lemma keeps_executor_formatter environment format_vars :
  keeps proj (ProcessExecutor._service_environment_formatter environment format_vars).
Proof.
  unfold ProcessExecutor._service_environment_formatter. keeps_go.
  apply keeps_format_value.
Qed.

Lemma keeps_service_environment service attribs :
  keeps proj (_service_environment service attribs).
Proof. unfold _service_environment. keeps_go. Qed.

Lemma keeps_service_format_vars self config service program_name pm_format_vars :
  (∀ environment format_vars,
     keeps proj (ExecutionEnvironment._service_environment_formatter self environment format_vars)) →
  keeps proj (ExecutionEnvironment._service_default_path self) →
  keeps proj (_service_format_vars self config service program_name pm_format_vars).
Proof.
  intros Hformatter Hpath. unfold _service_format_vars. keeps_go.
  apply keeps_service_environment.
Qed.

Lemma keeps_call_service_format_vars self config service rest :
  (∀ environment format_vars,
     keeps proj (ExecutionEnvironment._service_environment_formatter self environment format_vars)) →
  keeps proj (ExecutionEnvironment._service_default_path self) →
  keeps proj (call_service_format_vars self config service rest).
Proof.
  intros Hformatter Hpath. unfold call_service_format_vars.
  destruct rest as [|? [|? [|? ?]]]; try apply keeps_raise.
  by apply keeps_service_format_vars.
Qed.
End executor_frame.

(** C10: exec sets service_command_style to direct on the Config object it
    is handed, in place in the registry and before anything else, whatever
    the outcome of the resolution and of the process replacement; every
    other field of that Config and every other Config stay as they were. *)
Theorem exec_forces_direct_style {lib : PyLib} (state_dir : string) (config : ConfigRef)
    (service : Service.t) (c : Config.t) (w : World) :
  heap w !! config = Some c →
  let w' := (ProcessExecutor.exec (ProcessExecutor.new state_dir) config service w).1 in
  heap w' = <[config := Config.set_service_command_style direct c]> (heap w)
  ∧ (∃ c', heap w' !! config = Some c'
           ∧ Config.service_command_style c' = direct
           ∧ Config.instance_name c' = Config.instance_name c
           ∧ Config.config_type c' = Config.config_type c
           ∧ Config.process_manager c' = Config.process_manager c
           ∧ Config.services c' = Config.services c
           ∧ Config.attribs c' = Config.attribs c
           ∧ Config.__file__ c' = Config.__file__ c
           ∧ Config.galaxy_root c' = Config.galaxy_root c
           ∧ Config.virtualenv c' = Config.virtualenv c
           ∧ Config.memory_limit c' = Config.memory_limit c
           ∧ Config.galaxy_user c' = Config.galaxy_user c
           ∧ Config.galaxy_group c' = Config.galaxy_group c)
  ∧ (∀ r, r ≠ config → heap w' !! r = heap w !! r).
Proof.
  intros Hc w'.
  assert (heap w' = <[config := Config.set_service_command_style direct c]> (heap w)) as Hheap.
  { subst w'. unfold ProcessExecutor.exec, ProcessExecutor.assign_service_command_style.
    rewrite bind_assoc. erewrite bind_Ret by (by apply deref_Some). mstep.
    match goal with
    | |- heap (?m ?w0).1 = _ => assert (keeps heap m) as Hk; [|by rewrite (Hk w0)]
    end.
    keeps_go.
    - apply keeps_call_service_format_vars.
      + intros. apply keeps_executor_formatter.
      + apply keeps_base_service_default_path.
    - apply keeps_heap_chdir. }
  split; [done|]. split.
  - exists (Config.set_service_command_style direct c). rewrite Hheap.
    split; [|done]. apply list_lookup_insert_eq. by eapply lookup_lt_Some.
  - intros r Hr. rewrite Hheap. by apply list_lookup_insert_ne.
Qed.

Lemma exec_forces_direct_style_witness :
  Config.service_command_style <$>
    heap (ProcessExecutor.exec (lib:=Reference.lib)
            (ProcessExecutor.new (lib:=Reference.lib) "/srv/galaxy/gravity")
            1%nat Examples.gunicorn (Examples.a_world [Examples.main; Examples.test] ∅ ∅)).1
  = [indirect; direct].
Proof.
  rewrite (proj1 (exec_forces_direct_style (lib:=Reference.lib) "/srv/galaxy/gravity" 1%nat
                    Examples.gunicorn Examples.test
                    (Examples.a_world [Examples.main; Examples.test] ∅ ∅) eq_refl)).
  reflexivity.
Defined.

(** * Where the code departs from the specification *)


(** C5: exec on a config with a virtualenv.  The resolver computes PATH with
    the virtualenv's bin directory in front of the inherited PATH; the
    environment handed to the process replacement carries the inherited
    PATH instead, because the inherited environment is laid over the
    resolved one. *)
Theorem exec_inherited_environment_wins :
  let w := set_dirs {["/srv/galaxy/server"]} (Examples.a_world [Examples.main] ∅ ∅) in
  let self := ProcessExecutor.new (lib:=Reference.lib) "/srv/galaxy/gravity" in
  ((ProcessExecutor.assign_service_command_style 0%nat direct;;
    call_service_format_vars (lib:=Reference.lib) self 0%nat Examples.gunicorn
      [VStr "gunicorn"; VDict []] ≫= getitem "environment") w).2
  = Ret (VDict [("GALAXY_CONFIG_FILE", VStr "/srv/galaxy/config/galaxy.yml");
                ("PATH", VStr "/srv/galaxy/venv/bin/:/usr/bin:/bin")])
  ∧ (ProcessExecutor.exec (lib:=Reference.lib) self 0%nat Examples.gunicorn w).2
    = Replaced
        {| image_file := "/srv/galaxy/venv/bin/gunicorn";
           image_argv := ["/srv/galaxy/venv/bin/gunicorn"; "--bind"; "localhost:8080"];
           image_env := [("GALAXY_CONFIG_FILE", VStr "/srv/galaxy/config/galaxy.yml");
                         ("PATH", VStr "/usr/bin:/bin");
                         ("HOME", VStr "/root")] |}.
Proof. split; vm_compute; reflexivity. Qed.

(** C4: the regeneration pass on a config with a virtualenv and services.
    The call of the resolver passes the backend's extra vars where the
    program name belongs and nothing for the overrides: it raises before the
    first unit file is rendered, and nothing is written. *)
Theorem regeneration_stops_at_resolver_call :
  let w := Examples.a_world [Examples.main] ∅ ∅ in
  let r := SystemdProcessManager.update (lib:=Reference.lib) Examples.systemd_root
             [0%nat] false false w in
  r.2 = Raise (TypeError "_service_format_vars() missing required positional arguments")
  ∧ files r.1 = ∅
  ∧ written r.1 = []
  ∧ (SystemdProcessManager.__update_service (lib:=Reference.lib) Examples.systemd_root
       0%nat Examples.gunicorn (SystemdService.new Examples.main Examples.gunicorn false) w).2
    = Raise (TypeError "_service_format_vars() missing required positional arguments").
Proof. repeat split; vm_compute; reflexivity. Qed.


(** * Name classification *)




Lemma heap_emit_all es w : heap (emit_all es w) = heap w.
Proof. revert w. induction es as [|e es IH]; intros w; simpl; [done|]. by rewrite IH. Qed.


Lemma files_emit_all es w : files (emit_all es w) = files w.
Proof. revert w. induction es as [|e es IH]; intros w; simpl; [done|]. by rewrite IH. Qed.

Section classification.
Context {lib : PyLib} (VALID_SERVICE_NAMES : gset string).



Lemma classify_spec w0 names : ∀ instance_names service_names w,
  ProcessManagerRouter.classify VALID_SERVICE_NAMES (registered_names w0) (configured_names w0)
    instance_names service_names names w
  = (emit_all (unknown_name <$> filter (is_unmatched VALID_SERVICE_NAMES w0) names) w,
     Ret (instance_names ++ filter (is_instance_token w0) names,
          service_names ++ filter (is_service_token VALID_SERVICE_NAMES w0) names)).
Proof.
  induction names as [|name names IH]; intros instance_names service_names w; simpl.
  { by rewrite !app_nil_r. }
  case_bool_decide as Hreg.
  - rewrite IH. rewrite (filter_cons_True (is_instance_token w0)) by done.
    rewrite (filter_cons_False (is_service_token VALID_SERVICE_NAMES w0)) by (intros [? ?]; done).
    rewrite (filter_cons_False (is_unmatched VALID_SERVICE_NAMES w0)) by (intros [? ?]; done).
    by rewrite <-!app_assoc.
  - case_bool_decide as Hknown.
    + rewrite IH. rewrite (filter_cons_False (is_instance_token w0)) by done.
      rewrite (filter_cons_True (is_service_token VALID_SERVICE_NAMES w0)) by done.
      rewrite (filter_cons_False (is_unmatched VALID_SERVICE_NAMES w0)) by (intros [? ?]; done).
      by rewrite <-app_assoc.
    + mstep. rewrite IH. rewrite (filter_cons_False (is_instance_token w0)) by done.
      rewrite (filter_cons_False (is_service_token VALID_SERVICE_NAMES w0)) by (intros [? ?]; done).
      rewrite (filter_cons_True (is_unmatched VALID_SERVICE_NAMES w0)) by done.
      done.
Qed.

(** What [_instance_service_names] does, in one equation. *)
Lemma _instance_service_names_spec names w :
  let tokens := from_option id [] names in
  let instance_names := filter (is_instance_token w) tokens in
  let service_names := filter (is_service_token VALID_SERVICE_NAMES w) tokens in
  ProcessManagerRouter._instance_service_names VALID_SERVICE_NAMES names w
  = (emit_all (unknown_name <$> filter (is_unmatched VALID_SERVICE_NAMES w) tokens) w,
     if bool_decide (tokens ≠ [] ∧ instance_names = [] ∧ service_names = [])
     then Raise (Fatal "No provided names are known instance or service names")
     else Ret (instance_names, service_names)).
Proof.
  intros tokens instance_names service_names.
  unfold ProcessManagerRouter._instance_service_names. mstep. mstep.
  destruct names as [[|name names]|]; [done| |done].
  cbv beta match.
  change (Config.instance_name <$> heap w) with (registered_names w).
  change (list_to_set (heap w ≫= λ c, Service.service_name <$> Config.services c))
    with (configured_names w).
  erewrite bind_Ret by apply classify_spec.
  change (from_option id [] (Some (name :: names))) with (name :: names) in *.
  rewrite !app_nil_l. fold tokens. fold instance_names. fold service_names.
  destruct instance_names, service_names; simpl;
    rewrite ?bool_decide_eq_true_2, ?bool_decide_eq_false_2 by naive_solver; done.
Qed.
End classification.







(** * The router's exec *)

Lemma select_refs_find (P : Config.t → Prop) `{∀ c, Decision (P c)} (Pb : Config.t → bool)
    (l : list Config.t) :
  (∀ c, Pb c = true ↔ P c) →
  ∀ i k c, list_find P l = Some (k, c) →
  ∃ rest, ConfigManager.select_refs Pb i l = (i + k)%nat :: rest.
Proof.
  intros HPb. induction l as [|x l IH]; intros i k c Hfind; [done|].
  simpl in *. destruct (decide (P x)) as [HP|HP].
  - rewrite (proj2 (HPb x) HP). simplify_eq. rewrite Nat.add_0_r. eauto.
  - destruct (Pb x) eqn:Hx; [by apply HPb in Hx|]. simpl.
    destruct (list_find P l) as [[k' c']|] eqn:Hl; simplify_eq/=.
    destruct (IH (S i) k' c eq_refl) as [rest Hrest]. exists rest.
    rewrite Hrest. f_equal. lia.
Qed.

Lemma filter_find {A} (P : A → Prop) `{∀ x, Decision (P x)} (l : list A) :
  match list_find P l with
  | Some (_, x) => ∃ rest, filter P l = x :: rest
  | None => filter P l = []
  end.
Proof.
  induction l as [|x l IH]; [done|]. simpl. destruct (decide (P x)).
  - rewrite filter_cons_True by done. eauto.
  - rewrite filter_cons_False by done. by destruct (list_find P l) as [[? ?]|].
Qed.

Section router_exec.
Context {lib : PyLib} (VALID_SERVICE_NAMES : gset string).



Lemma exec_wrong_instance_count self names w :
  let tokens := from_option id [] names in
  let instance_tokens := filter (is_instance_token w) tokens in
  let w0 := emit_all (unknown_name <$> filter (is_unmatched VALID_SERVICE_NAMES w) tokens) w in
  length (heap w) ≠ 1%nat →
  length instance_tokens ≠ 1%nat →
  ∃ msg, ProcessManagerRouter.exec VALID_SERVICE_NAMES self names w = (w0, Raise (Fatal msg)).
Proof.
  intros tokens instance_tokens w0 Hheap Hlen. unfold ProcessManagerRouter.exec.
  pose proof (_instance_service_names_spec VALID_SERVICE_NAMES names w) as Hspec.
  cbv zeta in Hspec. fold tokens in Hspec. fold instance_tokens in Hspec. fold w0 in Hspec.
  assert (heap w0 = heap w) as Hw0 by apply heap_emit_all.
  case_bool_decide.
  - erewrite bind_Raise by exact Hspec. eauto.
  - erewrite bind_Ret by exact Hspec. cbv beta match. mstep.
    rewrite Hw0. rewrite (bool_decide_eq_false_2 (length (heap w) = 1%nat)) by done.
    rewrite andb_false_r. rewrite (bool_decide_eq_false_2 (length instance_tokens = 1%nat)) by done.
    eauto.
Qed.

Lemma exec_one_instance self names w i config c :
  let tokens := from_option id [] names in
  let service_tokens := filter (is_service_token VALID_SERVICE_NAMES w) tokens in
  let w0 := emit_all (unknown_name <$> filter (is_unmatched VALID_SERVICE_NAMES w) tokens) w in
  let service_list := str_join ", " (Service.service_name <$> Config.services c) in
  length (heap w) ≠ 1%nat →
  filter (is_instance_token w) tokens = [i] →
  list_find (λ c, Config.instance_name c = i) (heap w) = Some (config, c) →
  ProcessManagerRouter.exec VALID_SERVICE_NAMES self names w
  = match service_tokens with
    | [s] =>
        match list_find (λ service, Service.service_name service = s) (Config.services c) with
        | Some (_, service) =>
            ProcessExecutor.exec (ProcessManagerRouter._process_executor self) config service w0
        | None => (w0, Raise (service_not_configured s service_list))
        end
    | _ => (w0, Raise (one_service_required service_list))
    end.
Proof.
  intros tokens service_tokens w0 service_list Hheap Hi Hfind.
  unfold ProcessManagerRouter.exec.
  pose proof (_instance_service_names_spec VALID_SERVICE_NAMES names w) as Hspec.
  cbv zeta in Hspec. fold tokens in Hspec. fold service_tokens in Hspec. fold w0 in Hspec.
  rewrite Hi in Hspec. rewrite bool_decide_eq_false_2 in Hspec by (by intros (_ & ? & _)).
  assert (heap w0 = heap w) as Hw0 by apply heap_emit_all.
  erewrite bind_Ret by exact Hspec. cbv beta match. mstep.
  rewrite Hw0. rewrite (bool_decide_eq_false_2 (length (heap w) = 1%nat)) by done.
  rewrite andb_false_r, (bool_decide_eq_true_2 (1%nat = 1%nat)) by done.
  cbn [negb]. mstep. rewrite bind_assoc. mstep. rewrite Hw0.
  destruct (select_refs_find (λ c, Config.instance_name c = i)
              (λ c, bool_decide (Config.instance_name c ∈ [i])) (heap w)) with (i:=0%nat) (k:=config) (c:=c)
    as [rest Hrest]; [|done|].
  { intros c0. rewrite bool_decide_eq_true, list_elem_of_singleton. done. }
  rewrite Hrest. mstep.
  apply list_find_Some in Hfind as (Hc & _ & _).
  erewrite bind_Ret by (apply deref_Some; by rewrite Hw0). fold service_list.
  destruct service_tokens as [|s [|s' service_tokens']]; [done| |done].
  rewrite (bool_decide_eq_true_2 (length [s] = 1%nat)) by done. cbn [negb]. mstep. mstep.
  pose proof (filter_find (λ service, Service.service_name service = s) (Config.services c)) as Hf.
  destruct (list_find _ (Config.services c)) as [[k service]|].
  - destruct Hf as [rest' Hf]. rewrite Hf.
    rewrite bool_decide_eq_false_2 by done. mstep. mstep. done.
  - rewrite Hf. rewrite bool_decide_eq_true_2 by done. done.
Qed.
End router_exec.

(** C6: over a registry of two instances, exec with no instance-name token
    or with two or more ends in a fatal error with nothing done but the
    warnings for unknown tokens; with exactly one instance token and exactly
    one service token it hands the first registered config of that instance
    and its service of that name to the executor, when the config has such a
    service, and otherwise fails with an error that lists the services the
    config does have. *)
Theorem exec_cardinality {lib : PyLib} (VALID_SERVICE_NAMES : gset string)
    (self : ProcessManagerRouter.t) (names : option (list string)) (w : World) :
  length (heap w) = 2%nat →
  let tokens := from_option id [] names in
  let instance_tokens := filter (is_instance_token w) tokens in
  let service_tokens := filter (is_service_token VALID_SERVICE_NAMES w) tokens in
  let w0 := emit_all (unknown_name <$> filter (is_unmatched VALID_SERVICE_NAMES w) tokens) w in
  let r := ProcessManagerRouter.exec VALID_SERVICE_NAMES self names w in
  (length instance_tokens ≠ 1%nat → ∃ msg, r = (w0, Raise (Fatal msg)))
  ∧ (∀ i s config c,
       instance_tokens = [i] → service_tokens = [s] →
       list_find (λ c, Config.instance_name c = i) (heap w) = Some (config, c) →
       (∀ k service,
          list_find (λ service, Service.service_name service = s) (Config.services c)
          = Some (k, service) →
          r = ProcessExecutor.exec (ProcessManagerRouter._process_executor self)
                config service w0)
       ∧ (s ∉ Service.service_name <$> Config.services c →
          r = (w0, Raise (service_not_configured s
                            (str_join ", " (Service.service_name <$> Config.services c)))))).
Proof.
  intros Hheap tokens instance_tokens service_tokens w0 r.
  assert (length (heap w) ≠ 1%nat) as Hne by lia.
  split.
  - intros Hlen. by apply exec_wrong_instance_count.
  - intros i s config c Hi Hs Hfind.
    pose proof (exec_one_instance VALID_SERVICE_NAMES self names w i config c Hne Hi Hfind)
      as Hexec.
    cbv zeta in Hexec. fold tokens in Hexec. fold service_tokens in Hexec. fold w0 in Hexec.
    fold r in Hexec. rewrite Hs in Hexec. split.
    + intros k service Hservice. by rewrite Hservice in Hexec.
    + intros Hnot.
      destruct (list_find _ (Config.services c)) as [[k service]|] eqn:Hservice; [|done].
      apply list_find_Some in Hservice as (Hin & Hname & _). exfalso. apply Hnot.
      apply list_elem_of_fmap. exists service. split; [done|]. by eapply list_elem_of_lookup_2.
Qed.

Lemma exec_cardinality_witness :
  let w := Examples.a_world [Examples.main; Examples.test] ∅ ∅ in
  (∃ msg, ProcessManagerRouter.exec (lib:=Reference.lib) ∅ Examples.a_router
            (Some ["main"; "celery"; "test"]) w = (w, Raise (Fatal msg)))
  ∧ ProcessManagerRouter.exec (lib:=Reference.lib) ∅ Examples.a_router
      (Some ["test"; "celery"]) w
    = (w, Raise (service_not_configured "celery" "gunicorn"))
  ∧ ProcessManagerRouter.exec (lib:=Reference.lib) ∅ Examples.a_router
      (Some ["main"; "celery"]) w
    = ProcessExecutor.exec (lib:=Reference.lib)
        (ProcessManagerRouter._process_executor Examples.a_router) 0%nat Examples.celery w.
Proof.
  intros w. split; [|split].
  - destruct (proj1 (exec_cardinality (lib:=Reference.lib) ∅ Examples.a_router
                       (Some ["main"; "celery"; "test"]) w eq_refl)) as [msg Hmsg].
    { vm_compute. intros [=]. }
    exists msg. rewrite Hmsg. reflexivity.
  - assert (filter (is_service_token ∅ w) ["test"; "celery"] = ["celery"]) as Hs
      by (vm_compute; reflexivity).
    rewrite (proj2 (proj2 (exec_cardinality (lib:=Reference.lib) ∅ Examples.a_router
                             (Some ["test"; "celery"]) w eq_refl)
                      "test" "celery" 1%nat Examples.test eq_refl Hs eq_refl)).
    + reflexivity.
    + apply (bool_decide_unpack _). vm_compute. exact I.
  - assert (filter (is_service_token ∅ w) ["main"; "celery"] = ["celery"]) as Hs
      by (vm_compute; reflexivity).
    rewrite (proj1 (proj2 (exec_cardinality (lib:=Reference.lib) ∅ Examples.a_router
                             (Some ["main"; "celery"]) w eq_refl)
                      "main" "celery" 0%nat Examples.main eq_refl Hs eq_refl)
               1%nat Examples.celery eq_refl).
    reflexivity.
Defined.

(** * Dictionaries *)

Section dict_facts.
Context {V : Type}.
Implicit Types (d : dict V) (k : string) (v : V).

Lemma dict_get_set_eq k v d : dict_get k (dict_set k v d) = Some v.
Proof.
  induction d as [|[k' v'] d IH]; simpl; [by rewrite decide_True|].
  destruct (decide (k = k')) as [->|Hne]; simpl.
  - by rewrite decide_True.
  - by rewrite decide_False.
Qed.

Lemma dict_get_set_ne k k' v d : k ≠ k' → dict_get k' (dict_set k v d) = dict_get k' d.
Proof.
  intros Hne. induction d as [|[k0 v0] d IH]; simpl; [by rewrite decide_False|].
  destruct (decide (k = k0)) as [->|Hne0]; simpl.
  - by rewrite !decide_False by done.
  - destruct (decide (k' = k0)); [done|]. apply IH.
Qed.

Lemma dict_get_None k d : dict_get k d = None ↔ k ∉ dict_keys d.
Proof.
  unfold dict_keys. induction d as [|[k' v'] d IH]; simpl.
  - split; [intros _; apply not_elem_of_nil|done].
  - rewrite not_elem_of_cons. destruct (decide (k = k')) as [->|Hne]; naive_solver.
Qed.




(** After [d.update(other)] the last binding of a key in [other] wins,
    and keys [other] does not bind keep the value [d] gave them. *)
Lemma dict_get_update k d other :
  dict_get k (dict_update d other)
  = match dict_get k (reverse other) with
    | Some v => Some v
    | None => dict_get k d
    end.
Proof.
  unfold dict_update. revert d. induction other as [|[k' v'] other IH] using rev_ind; intros d.
  { done. }
  rewrite foldl_app, reverse_app. simpl.
  destruct (decide (k = k')) as [->|Hne].
  - apply dict_get_set_eq.
  - rewrite dict_get_set_ne by done. apply IH.
Qed.
End dict_facts.

(** * Routing *)








Lemma map_M_deref_names w1 w l :
  heap w1 = heap w →
  Forall (λ r, is_Some (heap w !! r)) l →
  ∃ names, map_M (λ r, Config.instance_name <$> deref r) l w1 = (w1, Ret names).
Proof.
  intros Hheap. induction 1 as [|r l [c Hc] Hl [names IH]]; simpl; [by eexists|].
  exists (Config.instance_name c :: names).
  erewrite bind_Ret; last first.
  { rewrite fmap_M_unfold. erewrite bind_Ret by (apply deref_Some; by rewrite Hheap). done. }
  by erewrite bind_Ret by exact IH.
Qed.

Section dispatch.
Context (self : ProcessManagerRouter.t) (func : string) (args : list PyVal)
  (service_names : list string) (configs_by_pm : dict (list ConfigRef)) (w : World).


End dispatch.








(** * Reconciliation *)


Lemma unlinked_add_log e w :
  unlinked (add_log e w) = unlinked w ++ match e with Unlink path => [path] | _ => [] end.
Proof. unfold unlinked. simpl. rewrite omap_app. by destruct e. Qed.

Lemma written_add_log e w :
  written (add_log e w) = written w ++ match e with Write path _ => [path] | _ => [] end.
Proof. unfold written. simpl. rewrite omap_app. by destruct e. Qed.


Section removal.
Context {lib : PyLib} (self : SystemdProcessManager.t).




End removal.




(** * The control utility *)

Lemma systemctl_calls_add_log e w :
  systemctl_calls (add_log e w)
  = systemctl_calls w ++ match e with Systemctl argv => [argv] | _ => [] end.
Proof. unfold systemctl_calls. simpl. rewrite omap_app. by destruct e. Qed.

Lemma systemctl_calls_after argv w :
  systemctl_calls (after_systemctl argv w) = systemctl_calls w ++ [argv].
Proof.
  unfold after_systemctl. rewrite !systemctl_calls_add_log. simpl. by rewrite app_nil_r.
Qed.

Lemma __systemctl_run {lib : PyLib} self args ignore_rc capture extra w :
  extra_args (host w) = inr extra →
  let argv := systemctl_argv self extra args in
  SystemdProcessManager.__systemctl self args ignore_rc capture w
  = (after_systemctl argv w,
     systemctl_outcome (systemctl_result (host w) argv) ignore_rc capture argv).
Proof.
  unfold extra_args, SystemdProcessManager.__systemctl, systemctl_argv, after_systemctl.
  intros Hextra. mstep.
  destruct (dict_get "GRAVITY_SYSTEMCTL_EXTRA_ARGS" (environ (host w))) as [s|] eqn:Hs; simpl.
  - case_bool_decide as Hempty; simpl.
    + simplify_eq. destruct (SystemdProcessManager.user_mode self); repeat mstep; simpl;
        unfold systemctl_outcome;
        match goal with |- context [systemctl_result ?h ?a] =>
          destruct (systemctl_result h a) as [rc out] end; simpl;
        destruct (rc =? 0); try done; destruct ignore_rc as [codes|]; simpl;
        try case_bool_decide; try done; set_solver.
    + rewrite Hextra. simpl.
      destruct (SystemdProcessManager.user_mode self); repeat mstep; simpl;
        unfold systemctl_outcome;
        match goal with |- context [systemctl_result ?h ?a] =>
          destruct (systemctl_result h a) as [rc out] end; simpl;
        destruct (rc =? 0); try done; destruct ignore_rc as [codes|]; simpl;
        try case_bool_decide; try done; set_solver.
  - simplify_eq. destruct (SystemdProcessManager.user_mode self); repeat mstep; simpl;
      unfold systemctl_outcome;
      match goal with |- context [systemctl_result ?h ?a] =>
        destruct (systemctl_result h a) as [rc out] end; simpl;
      destruct (rc =? 0); try done; destruct ignore_rc as [codes|]; simpl;
      try case_bool_decide; try done; set_solver.
Qed.



Lemma bind_unfold {A B} (m : M A) (f : A → M B) w :
  (m ≫= f) w = match m w with
               | (w', Ret a) => f a w'
               | (w', Raise e) => (w', Raise e)
               | (w', Replaced image) => (w', Replaced image)
               end.
Proof. reflexivity. Qed.



(** X1: systemctl is handed the user-mode flag, then the extra arguments
    of the environment, then the arguments of the call; exactly one command
    is run per call, and none when the extra arguments do not parse.  The
    call returns when the exit status is zero or one the caller ignores, and
    raises CalledProcessError with that status otherwise. *)
Theorem systemctl_runs_one_command {lib : PyLib} (self : SystemdProcessManager.t)
    (args : list string) (ignore_rc : option (list Z)) (capture : bool) (w : World) :
  let r := SystemdProcessManager.__systemctl self args ignore_rc capture w in
  match extra_args (host w) with
  | inl e => r = (w, Raise e)
  | inr extra =>
      let argv := systemctl_argv self extra args in
      let rc := (systemctl_result (host w) argv).1 in
      systemctl_calls r.1 = systemctl_calls w ++ [argv]
      ∧ files r.1 = files w ∧ dirs r.1 = dirs w ∧ heap r.1 = heap w
      ∧ (rc = 0 → r.2 = Ret (if capture then VStr (systemctl_result (host w) argv).2
                              else VInt 0))
      ∧ (rc ≠ 0 → rc ∈ from_option id [] ignore_rc → r.2 = Ret VNone)
      ∧ (rc ≠ 0 → rc ∉ from_option id [] ignore_rc →
         r.2 = Raise (CalledProcessError rc ("systemctl" :: argv)))
  end.
Proof.
  intros r. subst r. destruct (extra_args (host w)) as [e|extra] eqn:Hextra.
  - unfold extra_args in Hextra. unfold SystemdProcessManager.__systemctl. mstep.
    destruct (dict_get "GRAVITY_SYSTEMCTL_EXTRA_ARGS" (environ (host w))) as [s|]; [|done].
    case_bool_decide; [done|]. simpl. rewrite bool_decide_eq_false_2 by done. simpl.
    rewrite Hextra. reflexivity.
  - intros argv rc. rewrite (__systemctl_run _ _ _ _ extra) by done. fold argv. simpl.
    rewrite systemctl_calls_after. unfold systemctl_outcome. fold rc.
    repeat split; try done.
    + intros ->. done.
    + intros Hrc Hin. rewrite (proj2 (Z.eqb_neq _ _) Hrc).
      by rewrite bool_decide_eq_true_2.
    + intros Hrc Hin. rewrite (proj2 (Z.eqb_neq _ _) Hrc).
      by rewrite bool_decide_eq_false_2.
Qed.

(** * Lifecycle operations of the systemd backend *)











(** * Graceful restart and shutdown *)


Lemma registered_emit_all es w configs cs :
  registered w configs cs → registered (emit_all es w) configs cs.
Proof. unfold registered. by rewrite heap_emit_all. Qed.







(** * Strings *)

Lemma list_of_str_app a b : list_of_str (a +:+ b) = list_of_str a ++ list_of_str b.
Proof. induction a as [|x a IH]; [done|]. simpl. by rewrite <-IH. Qed.

Lemma list_of_str_inj a b : list_of_str a = list_of_str b → a = b.
Proof.
  intros Heq. rewrite <-(string_of_list_ascii_of_string a), <-(string_of_list_ascii_of_string b).
  unfold list_of_str in Heq. by rewrite Heq.
Qed.

Lemma str_app_inj_r s a b : a +:+ s = b +:+ s → a = b.
Proof.
  intros Heq. apply list_of_str_inj.
  apply (f_equal list_of_str) in Heq. rewrite !list_of_str_app in Heq.
  by apply app_inv_tail in Heq.
Qed.

Lemma str_app_inj_l s a b : s +:+ a = s +:+ b → a = b.
Proof. induction s as [|x s IH]; [done|]. simpl. intros [=]. auto. Qed.

Lemma map_M_cons {A B} (f : A → M B) x l :
  map_M f (x :: l) = y ← f x; ys ← map_M f l; mret (y :: ys).
Proof. reflexivity. Qed.



(** * Unit names and the artifacts reconciliation knows *)

Lemma startswith_app p s : startswith (p +:+ s) p = true.
Proof.
  unfold startswith. induction p as [|x p IH]; simpl; [by destruct s|].
  by destruct (ascii_dec x x).
Qed.

Lemma rev_app_list s acc :
  list_of_str (String.rev_app s acc) = reverse (list_of_str s) ++ list_of_str acc.
Proof.
  revert acc. induction s as [|x s IH]; intros acc; simpl; [done|].
  rewrite IH. simpl. rewrite reverse_cons, <-app_assoc. done.
Qed.

Lemma rev_list s : list_of_str (String.rev s) = reverse (list_of_str s).
Proof. unfold String.rev. rewrite rev_app_list. simpl. by rewrite app_nil_r. Qed.

Lemma rev_app_str a b : String.rev (a +:+ b) = String.rev b +:+ String.rev a.
Proof.
  apply list_of_str_inj.
  by rewrite list_of_str_app, !rev_list, list_of_str_app, reverse_app.
Qed.

Lemma endswith_app s p : endswith (s +:+ p) p = true.
Proof. unfold endswith. rewrite rev_app_str. apply startswith_app. Qed.

Lemma str_app_assoc a b c : (a +:+ b) +:+ c = a +:+ b +:+ c.
Proof.
  induction a as [|x a IH]; [done|].
  change (String x ((a +:+ b) +:+ c) = String x (a +:+ b +:+ c)). by rewrite IH.
Qed.

(** X9: a service with a count above one has as many unit names as its
    count, all different; with any other count, zero and negative counts
    included, it has the one unit name that is also the name of its unit
    file. *)
Theorem one_unit_per_replica (config : Config.t) (service : Service.t)
    (use_instance_name : bool) :
  let s := SystemdService.new config service use_instance_name in
  length (SystemdService.unit_names s) = Z.to_nat (Z.max 1 (Service.count service))
  ∧ NoDup (SystemdService.unit_names s)
  ∧ (Service.count service ≤ 1 →
     SystemdService.unit_names s = [SystemdService.unit_file_name s]).
Proof.
  intros s. unfold SystemdService.unit_names, SystemdService.unit_file_name.
  subst s. simpl. destruct (1 <? Service.count service) eqn:Hcount.
  - apply Z.ltb_lt in Hcount. split; [|split].
    + rewrite length_fmap, length_seqZ. lia.
    + apply NoDup_fmap_2; [|apply NoDup_seqZ].
      intros i j Heq. apply str_app_inj_l, str_app_inj_l in Heq.
      apply str_app_inj_r in Heq. by apply (inj pretty).
    + lia.
  - apply Z.ltb_ge in Hcount. split; [|split].
    + simpl. lia.
    + apply NoDup_singleton.
    + done.
Qed.

(** X10: the unit file of a service whose config type is galaxy, and the
    target of a config whose config type is galaxy, carry a name that the
    reconciliation of _process_configs takes for an artifact of the
    backend, whatever the service, instance and count. *)
Theorem galaxy_units_are_recognised (self : SystemdProcessManager.t) (config : Config.t)
    (service : Service.t) :
  (Service.config_type service = "galaxy" →
   SystemdProcessManager.is_present_config
     (SystemdService.unit_file_name
        (SystemdService.new config service (SystemdProcessManager._use_instance_name self)))
   = true)
  ∧ (Config.config_type config = "galaxy" →
     SystemdProcessManager.is_present_config
       (SystemdProcessManager.__target_unit_name self config) = true).
Proof.
  unfold SystemdProcessManager.is_present_config. split.
  - intros Htype. unfold SystemdService.unit_file_name. simpl. rewrite Htype.
    apply orb_true_iff. left. apply andb_true_iff. split.
    + destruct (SystemdProcessManager._use_instance_name self), (1 <? Service.count service);
        apply (startswith_app "galaxy-").
    + apply orb_true_iff. left.
      destruct (1 <? Service.count service).
      * change "@.service" with ("@" +:+ ".service").
        rewrite <-(str_app_assoc _ "@" ".service"). apply endswith_app.
      * apply endswith_app.
  - intros Htype. unfold SystemdProcessManager.__target_unit_name. rewrite Htype.
    destruct (SystemdProcessManager._use_instance_name self).
    + apply orb_true_iff. left. apply andb_true_iff. split; [apply (startswith_app "galaxy-")|].
      apply orb_true_iff. right.
      rewrite <-(str_app_assoc "galaxy" _ ".target"). apply endswith_app.
    + reflexivity.
Qed.

Lemma galaxy_units_are_recognised_witness :
  SystemdProcessManager.is_present_config
    (SystemdService.unit_file_name
       (SystemdService.new Examples.main Examples.celery true)) = true
  ∧ SystemdProcessManager.is_present_config
      (SystemdProcessManager.__target_unit_name Examples.systemd_user Examples.main) = true.
Proof.
  split.
  - exact (proj1 (galaxy_units_are_recognised Examples.systemd_user Examples.main
                    Examples.celery) eq_refl).
  - exact (proj2 (galaxy_units_are_recognised Examples.systemd_user Examples.main
                    Examples.celery) eq_refl).
Defined.

Lemma prefix_empty s : String.prefix EmptyString s = true.
Proof. by destruct s. Qed.

Lemma prefix_before_separator (c : ascii) (r : string) (p : string) : ∀ s,
  c ∉ list_of_str p →
  String.prefix (p +:+ String c EmptyString) (s +:+ String c r) = true →
  String.prefix p s = true.
Proof.
  induction p as [|a p IH]; intros s Hc Hprefix; [apply prefix_empty|].
  simpl in Hc. apply not_elem_of_cons in Hc as [Hca Hc].
  destruct s as [|b s]; simpl in *.
  - destruct (ascii_dec a c); [congruence|done].
  - destruct (ascii_dec a b); [|done]. by apply IH.
Qed.

Lemma prefix_without_separator (c : ascii) (r : string) (p : string) : ∀ s,
  c ∉ list_of_str p →
  String.prefix p (s +:+ String c r) = true →
  String.prefix p s = true.
Proof.
  induction p as [|a p IH]; intros s Hc Hprefix; [apply prefix_empty|].
  simpl in Hc. apply not_elem_of_cons in Hc as [Hca Hc].
  destruct s as [|b s]; simpl in *.
  - destruct (ascii_dec a c); [congruence|done].
  - destruct (ascii_dec a b); [|done]. by apply IH.
Qed.

Lemma prefix_app_l (p q : string) : ∀ s,
  String.prefix (p +:+ q) s = true → String.prefix p s = true.
Proof.
  induction p as [|a p IH]; intros s Hprefix; [apply prefix_empty|].
  destruct s as [|b s]; simpl in *; [done|].
  destruct (ascii_dec a b); [|done]. by apply IH.
Qed.

Lemma not_startswith_galaxy (ct r : string) :
  startswith ct "galaxy" = false → startswith (ct +:+ String "-" r) "galaxy-" = false.
Proof.
  unfold startswith. intros Hct.
  destruct (String.prefix "galaxy-" (ct +:+ String "-" r)) eqn:Hprefix; [|done].
  apply (prefix_before_separator "-" r "galaxy") in Hprefix; [congruence|].
  vm_compute. intros Hin. repeat (apply elem_of_cons in Hin as [[=]|Hin]).
  by apply elem_of_nil in Hin.
Qed.

Lemma dash_not_in_galaxy_target (a b : string) : a +:+ String "-" b ≠ "galaxy.target".
Proof.
  intros Heq. apply (f_equal list_of_str) in Heq. rewrite list_of_str_app in Heq.
  assert ("-"%char ∈ list_of_str "galaxy.target") as Hin.
  { rewrite <-Heq. apply elem_of_app. right. simpl. left. }
  vm_compute in Hin. repeat (apply elem_of_cons in Hin as [[=]|Hin]).
  by apply elem_of_nil in Hin.
Qed.

(** X11: the unit file of a service whose config type does not begin with
    galaxy, and the target of a config whose config type does not, carry
    names that the reconciliation of _process_configs does not take for
    artifacts of the backend: it neither counts them as present nor
    removes them. *)
Theorem other_config_types_are_not_recognised (self : SystemdProcessManager.t)
    (config : Config.t) (service : Service.t) :
  (startswith (Service.config_type service) "galaxy" = false →
   SystemdProcessManager.is_present_config
     (SystemdService.unit_file_name
        (SystemdService.new config service (SystemdProcessManager._use_instance_name self)))
   = false)
  ∧ (startswith (Config.config_type config) "galaxy" = false →
     SystemdProcessManager.is_present_config
       (SystemdProcessManager.__target_unit_name self config) = false).
Proof.
  unfold SystemdProcessManager.is_present_config. split.
  - intros Htype. unfold SystemdService.unit_file_name. simpl.
    set (ct := Service.config_type service) in *.
    set (name := Service.service_name service).
    set (suffix := if 1 <? Service.count service then "@.service" else ".service").
    assert (∃ r, (if 1 <? Service.count service
                  then (ct +:+ (if SystemdProcessManager._use_instance_name self
                                then "-" +:+ Config.instance_name config else EmptyString)
                           +:+ "-" +:+ name) +:+ "@.service"
                  else (ct +:+ (if SystemdProcessManager._use_instance_name self
                                then "-" +:+ Config.instance_name config else EmptyString)
                           +:+ "-" +:+ name) +:+ ".service")
                 = ct +:+ String "-" r) as [r ->].
    { destruct (SystemdProcessManager._use_instance_name self), (1 <? Service.count service);
        rewrite !str_app_assoc; eexists; reflexivity. }
    rewrite not_startswith_galaxy by done. simpl.
    apply bool_decide_eq_false_2, dash_not_in_galaxy_target.
  - intros Htype. unfold SystemdProcessManager.__target_unit_name.
    destruct (SystemdProcessManager._use_instance_name self).
    + change (Config.config_type config +:+ ("-" +:+ Config.instance_name config)
                +:+ ".target")
        with (Config.config_type config
                +:+ String "-" (Config.instance_name config +:+ ".target")).
      rewrite not_startswith_galaxy by done. simpl.
      apply bool_decide_eq_false_2, dash_not_in_galaxy_target.
    + apply orb_false_iff. split.
      * apply andb_false_iff. left. unfold startswith in *.
        destruct (String.prefix "galaxy-" _) eqn:Hprefix; [|done].
        change (Config.config_type config +:+ EmptyString +:+ ".target")
          with (Config.config_type config +:+ String "." "target") in Hprefix.
        apply prefix_without_separator in Hprefix.
        { apply (prefix_app_l "galaxy" "-") in Hprefix. congruence. }
        vm_compute. intros Hin. repeat (apply elem_of_cons in Hin as [[=]|Hin]).
        by apply elem_of_nil in Hin.
      * apply bool_decide_eq_false_2. intros Heq.
        change "galaxy.target" with ("galaxy" +:+ EmptyString +:+ ".target") in Heq.
        apply str_app_inj_r in Heq. rewrite Heq in Htype. done.
Qed.

Lemma other_config_types_are_not_recognised_witness :
  SystemdProcessManager.is_present_config
    (SystemdService.unit_file_name
       (SystemdService.new Examples.reports Examples.reports_service false)) = false
  ∧ SystemdProcessManager.is_present_config
      (SystemdProcessManager.__target_unit_name Examples.systemd_root Examples.reports)
    = false.
Proof.
  split.
  - exact (proj1 (other_config_types_are_not_recognised Examples.systemd_root
                    Examples.reports Examples.reports_service) eq_refl).
  - exact (proj2 (other_config_types_are_not_recognised Examples.systemd_root
                    Examples.reports Examples.reports_service) eq_refl).
Defined.



(** * Writing a file only when it changes *)

Lemma _file_needs_update_file path contents w :
  path ∉ dirs w →
  _file_needs_update path contents w
  = (w, Ret (bool_decide (files w !! path ≠ Some contents))).
Proof.
  unfold _file_needs_update. intros Hdir. mstep.
  destruct (files w !! path) as [old|] eqn:Hfile.
  - rewrite bool_decide_eq_true_2 by (left; eauto).
    erewrite bind_Ret by (by apply read_file_Some).
    destruct (decide (old = contents)) as [->|Hne].
    + by rewrite bool_decide_eq_false_2 by naive_solver.
    + by rewrite bool_decide_eq_true_2 by naive_solver.
  - rewrite bool_decide_eq_false_2 by (intros [[? [=]]|?]; done).
    by rewrite bool_decide_eq_true_2.
Qed.

(** X13: for a path that is not a directory, _file_needs_update answers
    False exactly when the file exists with the given contents, and changes
    nothing; for a directory it fails, since a directory cannot be read. *)
Theorem file_needs_update_iff_differs (path contents : string) (w : World) :
  (path ∉ dirs w →
   _file_needs_update path contents w
   = (w, Ret (bool_decide (files w !! path ≠ Some contents))))
  ∧ (path ∈ dirs w → files w !! path = None →
     _file_needs_update path contents w = (w, Raise (OSError path))).
Proof.
  split; [apply _file_needs_update_file|]. unfold _file_needs_update.
  - intros Hdir Hfile. mstep. rewrite bool_decide_eq_true_2 by auto.
    erewrite bind_Raise; [done|]. unfold read_file. by rewrite Hfile.
Qed.

Lemma file_needs_update_iff_differs_witness :
  let w := Examples.a_world [] {["/etc/systemd/system/galaxy.target" := "Wants="]}
             {["/etc/systemd/system"]} in
  _file_needs_update "/etc/systemd/system/galaxy.target" "Wants=" w = (w, Ret false)
  ∧ _file_needs_update "/etc/systemd/system" "Wants=" w
    = (w, Raise (OSError "/etc/systemd/system")).
Proof.
  intros w. split.
  - etrans; [apply (proj1 (file_needs_update_iff_differs
                             "/etc/systemd/system/galaxy.target" "Wants=" w))|].
    + vm_compute. intros [=].
    + vm_compute. reflexivity.
  - apply (proj2 (file_needs_update_iff_differs "/etc/systemd/system" "Wants=" w)).
    + vm_compute. reflexivity.
    + vm_compute. reflexivity.
Defined.



(** * A cleaning pass over a config *)






(** * The default path of a service *)




(** * The environment of a service *)

Lemma dict_get_reverse {V} k (d : dict V) :
  NoDup (dict_keys d) → dict_get k (reverse d) = dict_get k d.
Proof.
  induction d as [|[k' v] d IH]; intros Hnodup; [done|].
  unfold dict_keys in Hnodup. rewrite fmap_cons in Hnodup. simpl in Hnodup.
  apply NoDup_cons in Hnodup as [Hk' Hnodup].
  rewrite reverse_cons. simpl.
  assert (∀ (d1 d2 : dict V), dict_get k (d1 ++ d2)
                              = match dict_get k d1 with
                                | Some x => Some x
                                | None => dict_get k d2
                                end) as Happ.
  { clear. induction d1 as [|[k1 v1] d1 IH1]; intros d2; [done|].
    simpl. destruct (decide (k = k1)); [done|apply IH1]. }
  rewrite Happ, IH by done. simpl.
  destruct (decide (k = k')) as [->|Hne].
  - apply dict_get_None in Hk'. by rewrite Hk'.
  - by destruct (dict_get k d).
Qed.

(** X17: a service inherits environment variables from the section of the
    instance attributes its environment_from names, or the one named like
    its service type when environment_from is not set or empty: a variable
    the section gives overrides the service's own, every other variable of
    the service is kept; without such a section, or without an environment
    in it, the service's own environment is returned as it is. *)
Theorem service_environment_inherits (service : Service.t)
    (attribs : dict PyVal) (w : World) :
  let own := Service.get_environment service in
  (∀ section inherited,
     dict_get (environment_section service) attribs = Some (VDict section) →
     dict_get "environment" section = Some (VDict inherited) →
     NoDup (dict_keys inherited) →
     ∃ environment,
       _service_environment service attribs w = (w, Ret environment)
       ∧ ∀ k, dict_get k environment
              = match dict_get k inherited with
                | Some v => Some v
                | None => dict_get k own
                end)
  ∧ (dict_get (environment_section service) attribs = None →
     _service_environment service attribs w = (w, Ret own))
  ∧ (∀ section,
       dict_get (environment_section service) attribs = Some (VDict section) →
       dict_get "environment" section = None →
       _service_environment service attribs w = (w, Ret own)).
Proof.
  intros own. unfold _service_environment. fold (environment_section service).
  unfold mapping_get, dict_get_default. split; [|split].
  - intros section inherited Hsection Henv Hnodup. rewrite Hsection.
    cbn [from_option id]. repeat mstep. rewrite Henv. cbn [from_option id]. repeat mstep.
    eexists. split; [reflexivity|]. intros k.
    by rewrite dict_get_update, dict_get_reverse.
  - intros Hsection. rewrite Hsection. reflexivity.
  - intros section Hsection Henv. rewrite Hsection.
    cbn [from_option id]. repeat mstep. rewrite Henv. reflexivity.
Qed.

Lemma service_environment_inherits_witness :
  let attribs : dict PyVal :=
    [("gunicorn",
      VDict [("environment",
              VDict [("GALAXY_CONFIG_FILE", VStr "/srv/galaxy/config/other.yml");
                     ("TMPDIR", VStr "/srv/galaxy/tmp")])])] in
  let w := Examples.a_world [] ∅ ∅ in
  ∃ environment,
    _service_environment Examples.gunicorn attribs w = (w, Ret environment)
    ∧ dict_get "GALAXY_CONFIG_FILE" environment = Some (VStr "/srv/galaxy/config/other.yml")
    ∧ dict_get "TMPDIR" environment = Some (VStr "/srv/galaxy/tmp").
Proof.
  intros attribs w.
  destruct (proj1 (service_environment_inherits Examples.gunicorn
                     attribs w)
              [("environment",
                VDict [("GALAXY_CONFIG_FILE", VStr "/srv/galaxy/config/other.yml");
                       ("TMPDIR", VStr "/srv/galaxy/tmp")])]
              [("GALAXY_CONFIG_FILE", VStr "/srv/galaxy/config/other.yml");
               ("TMPDIR", VStr "/srv/galaxy/tmp")]
              eq_refl eq_refl
              ltac:(apply (bool_decide_unpack _); vm_compute; exact I))
    as (environment & Hrun & Hget).
  exists environment. split; [exact Hrun|]. split; rewrite Hget; reflexivity.
Defined.

(** * The format variables of a service *)

Lemma bind_Ret_inv {A B} (m : M A) (f : A → M B) w w' b :
  (m ≫= f) w = (w', Ret b) → ∃ w1 a, m w = (w1, Ret a) ∧ f a w1 = (w', Ret b).
Proof.
  rewrite bind_unfold. destruct (m w) as [w1 [a|e|image]]; [eauto|done|done].
Qed.

Lemma bind_Replaced_inv {A B} (m : M A) (f : A → M B) w w' image :
  (m ≫= f) w = (w', Replaced image) →
  m w = (w', Replaced image) ∨ ∃ w1 a, m w = (w1, Ret a) ∧ f a w1 = (w', Replaced image).
Proof.
  rewrite bind_unfold. destruct (m w) as [w1 [a|e|image']]; [eauto|done|].
  intros [= -> ->]. by left.
Qed.

Lemma mret_inv {A} (a b : A) (w w' : World) :
  (mret a : M A) w = (w', Ret b) → w' = w ∧ b = a.
Proof. by intros [= -> ->]. Qed.

Lemma deref_inv r w w' c : deref r w = (w', Ret c) → w' = w ∧ heap w !! r = Some c.
Proof. unfold deref. destruct (heap w !! r); by intros [= -> ->]. Qed.

Lemma getitem_inv {V} k (d : dict V) w w' v :
  getitem k d w = (w', Ret v) → w' = w ∧ dict_get k d = Some v.
Proof. unfold getitem. destruct (dict_get k d); by intros [= -> ->]. Qed.

Lemma as_str_inv v w w' s : as_str v w = (w', Ret s) → w' = w ∧ v = VStr s.
Proof. destruct v; by intros [= -> ->]. Qed.

Lemma as_dict_inv v w w' d : as_dict v w = (w', Ret d) → w' = w ∧ v = VDict d.
Proof. destruct v; by intros [= -> ->]. Qed.

Lemma lift_inv {A} (r : Exn + A) w w' a : lift r w = (w', Ret a) → w' = w ∧ r = inr a.
Proof. destruct r; by intros [= -> ->]. Qed.

(** Invert the first computation of a bind that returned. *)
Ltac inv_bind H w1 a E := apply bind_Ret_inv in H as (w1 & a & E & H).

Lemma _service_format_vars_Ret {lib : PyLib} self config service program_name overrides
    w w' format_vars :
  _service_format_vars self config service program_name (VDict overrides) w
  = (w', Ret format_vars) →
  ∃ c url virtualenv_bin command_format_vars command environment w1 formatted,
    heap w !! config = Some c
    ∧ dict_get "galaxy_infrastructure_url" (Config.attribs c) = Some url
    ∧ (let overridden :=
         dict_update (base_format_vars self c service program_name url virtualenv_bin)
           overrides in
       if decide (Config.service_command_style c = direct)
       then ∃ command_arguments,
              command_format_vars = dict_set "command_arguments" command_arguments overridden
       else command_format_vars = overridden
            ∧ command = indirect_command c program_name
            ∧ environment = [("GRAVITY_STATE_DIR", VStr "{state_dir}")]
            ∧ w1 = w)
    ∧ ExecutionEnvironment._service_environment_formatter self environment
        (dict_set "command" (VStr command) command_format_vars) w1
      = (w', Ret formatted)
    ∧ format_vars
      = dict_set "environment" formatted
          (dict_set "command" (VStr command) command_format_vars).
Proof.
  unfold _service_format_vars. intros Hrun.
  inv_bind Hrun w0 c Ec. apply deref_inv in Ec as [-> Hc].
  inv_bind Hrun w1 virtualenv_bin Ebin.
  assert (w1 = w) as ->.
  { destruct (py_truthy _); [|by apply mret_inv in Ebin as [-> _]].
    inv_bind Ebin w2 d Ed. apply as_str_inv in Ed as [-> _].
    by apply mret_inv in Ebin as [-> _]. }
  clear Ebin.
  inv_bind Hrun w1 url Eurl. apply getitem_inv in Eurl as [-> Hurl].
  inv_bind Hrun w1 overrides' Eoverrides. apply mret_inv in Eoverrides as [-> ->].
  inv_bind Hrun w1 branch Ebranch. destruct branch as [command_format_vars' environment].
  inv_bind Hrun w2 formatted Eformatted. apply mret_inv in Hrun as [-> ->].
  fold (base_format_vars self c service program_name url virtualenv_bin) in Ebranch.
  destruct (decide (Config.service_command_style c = direct)) as [Hdirect|Hdirect].
  - inv_bind Ebranch w3 command Ecommand. apply lift_inv in Ecommand as [-> Hcommand].
    inv_bind Ebranch w3 environment0 Eenvironment.
    inv_bind Ebranch w4 bin Ebin.
    inv_bind Ebranch w5 environment1 Epath.
    apply mret_inv in Ebranch as [-> [= -> ->]].
    exists c, url, virtualenv_bin. eexists _, command, _, _, formatted.
    split; [done|]. split; [done|]. rewrite decide_True by done.
    split; [eexists; reflexivity|]. split; [exact Eformatted|reflexivity].
  - apply mret_inv in Ebranch as [-> [= -> ->]].
    exists c, url, virtualenv_bin. eexists _, _, _, _, formatted.
    split; [done|]. split; [done|]. rewrite decide_False by done.
    split; [done|]. split; [exact Eformatted|reflexivity].
Qed.

Lemma dict_get_overridden {V} k (base overrides : dict V) :
  NoDup (dict_keys overrides) →
  dict_get k (dict_update base overrides)
  = match dict_get k overrides with
    | Some v => Some v
    | None => dict_get k base
    end.
Proof. intros Hnodup. by rewrite dict_get_update, dict_get_reverse. Qed.



(** X19: for a config that is not in direct command style, the command of
    a service re-invokes galaxyctl exec for the instance and the program
    name, whatever the command template of the service and the overrides
    say; its environment is what the environment formatter makes of the one
    variable GRAVITY_STATE_DIR, and no command arguments are computed. *)
Theorem indirect_style_reinvokes_galaxyctl {lib : PyLib} (self : ExecutionEnvironment)
    (config : ConfigRef) (c : Config.t) (service : Service.t) (program_name : PyVal)
    (overrides : dict PyVal) (w w' : World) (format_vars : dict PyVal) :
  heap w !! config = Some c →
  Config.service_command_style c ≠ direct →
  NoDup (dict_keys overrides) →
  _service_format_vars self config service program_name (VDict overrides) w
  = (w', Ret format_vars) →
  dict_get "command" format_vars = Some (VStr (indirect_command c program_name))
  ∧ dict_get "command_arguments" format_vars = dict_get "command_arguments" overrides
  ∧ ∃ formatted given,
      ExecutionEnvironment._service_environment_formatter self
        [("GRAVITY_STATE_DIR", VStr "{state_dir}")] given w = (w', Ret formatted)
      ∧ dict_get "command" given = Some (VStr (indirect_command c program_name))
      ∧ dict_get "environment" format_vars = Some formatted.
Proof.
  intros Hc Hstyle Hnodup Hrun.
  apply _service_format_vars_Ret in Hrun
    as (c' & url & virtualenv_bin & command_format_vars & command & environment & w1
        & formatted & Hc' & Hurl & Hshape & Hformatted & ->).
  simplify_eq. rewrite decide_False in Hshape by done.
  destruct Hshape as (-> & -> & -> & ->). split; [|split].
  - rewrite dict_get_set_ne by done. by rewrite dict_get_set_eq.
  - rewrite !dict_get_set_ne by done. rewrite dict_get_overridden by done.
    by destruct (dict_get "command_arguments" overrides).
  - eexists formatted, _. split; [exact Hformatted|].
    split; [by rewrite dict_get_set_eq|by rewrite dict_get_set_eq].
Qed.

Lemma indirect_style_reinvokes_galaxyctl_witness :
  let w := Examples.a_world [Examples.main] ∅ ∅ in
  ∃ format_vars,
    (_service_format_vars (lib:=Reference.lib)
       (ProcessExecutor.new (lib:=Reference.lib) "/srv/galaxy/gravity") 0%nat
       Examples.gunicorn (VStr "main_galaxy_gunicorn_gunicorn") (VDict []) w).2
    = Ret format_vars
    ∧ dict_get "command" format_vars
      = Some (VStr "galaxyctl exec main main_galaxy_gunicorn_gunicorn").
Proof.
  intros w.
  destruct (_service_format_vars (lib:=Reference.lib)
              (ProcessExecutor.new (lib:=Reference.lib) "/srv/galaxy/gravity") 0%nat
              Examples.gunicorn (VStr "main_galaxy_gunicorn_gunicorn") (VDict []) w)
    as [w' [format_vars|e|image]] eqn:Hrun.
  - exists format_vars. split; [reflexivity|].
    exact (proj1 (indirect_style_reinvokes_galaxyctl (lib:=Reference.lib) _ 0%nat
                    Examples.main _ _ [] w w' format_vars eq_refl ltac:(discriminate)
                    (NoDup_nil_2 (A:=string)) Hrun)).
  - vm_compute in Hrun. discriminate.
  - vm_compute in Hrun. discriminate.
Defined.

(** * Running a service in the foreground *)

Lemma never_returns_bind {A B} (m : M A) (f : A → M B) :
  (∀ a, never_returns (f a)) → never_returns (m ≫= f).
Proof.
  intros Hf w b. rewrite bind_unfold. destruct (m w) as [w1 [a|e|image]]; [apply Hf|done..].
Qed.

Lemma never_returns_execvpe file argv env : never_returns (execvpe file argv env).
Proof. intros w a. unfold execvpe. by destruct (executable (host w) file). Qed.

Lemma never_returns_executor_exec {lib : PyLib} self config service :
  never_returns (ProcessExecutor.exec self config service).
Proof.
  unfold ProcessExecutor.exec.
  repeat (apply never_returns_bind; intros ?). apply never_returns_execvpe.
Qed.

Lemma never_returns_router_exec {lib : PyLib} VALID_SERVICE_NAMES router names :
  never_returns (ProcessManagerRouter.exec VALID_SERVICE_NAMES router names).
Proof.
  unfold ProcessManagerRouter.exec.
  apply never_returns_bind. intros [instance_names service_names].
  repeat first [apply never_returns_executor_exec | apply never_returns_bind; intros ?].
Qed.

(** X20: exec never returns to its caller, neither the executor's nor the
    router's: it ends in an exception, a fatal error among them, or in the
    process being replaced by the service. *)
Theorem exec_never_returns {lib : PyLib} (VALID_SERVICE_NAMES : gset string)
    (router : ProcessManagerRouter.t) (names : option (list string))
    (self : ExecutionEnvironment) (config : ConfigRef) (service : Service.t) :
  never_returns (ProcessExecutor.exec self config service)
  ∧ never_returns (ProcessManagerRouter.exec VALID_SERVICE_NAMES router names).
Proof. split; [apply never_returns_executor_exec|apply never_returns_router_exec]. Qed.

Lemma never_replaces_ret {A} (a : A) : never_replaces (mret a).
Proof. done. Qed.

Lemma never_replaces_raise {A} e : never_replaces (raise (A:=A) e).
Proof. done. Qed.

Lemma never_replaces_gets {A} (g : World → A) : never_replaces (gets g).
Proof. done. Qed.

Lemma never_replaces_modify g : never_replaces (modify g).
Proof. done. Qed.

Lemma never_replaces_lift {A} (r : Exn + A) : never_replaces (lift r).
Proof. by destruct r. Qed.

Lemma never_replaces_bind {A B} (m : M A) (f : A → M B) :
  never_replaces m → (∀ a, never_replaces (f a)) → never_replaces (m ≫= f).
Proof.
  intros Hm Hf w image. rewrite bind_unfold. specialize (Hm w).
  destruct (m w) as [w1 [a|e|image']]; [apply Hf|done|].
  simpl in *. intros [= ->]. by destruct (Hm image).
Qed.

Lemma never_replaces_fmap {A B} (g : A → B) (m : M A) :
  never_replaces m → never_replaces (g <$> m).
Proof. intros Hm. apply never_replaces_bind; [done|]. intros a. apply never_replaces_ret. Qed.

Lemma never_replaces_map_M {A B} (f : A → M B) l :
  (∀ x, never_replaces (f x)) → never_replaces (map_M f l).
Proof.
  intros Hf. induction l as [|x l IH]; [apply never_replaces_ret|].
  rewrite map_M_cons. apply never_replaces_bind; [done|]. intros y.
  apply never_replaces_bind; [done|]. intros ys. apply never_replaces_ret.
Qed.

Lemma never_replaces_deref r : never_replaces (deref r).
Proof. intros w image. unfold deref. by destruct (heap w !! r). Qed.

Lemma never_replaces_getitem {V} k (d : dict V) : never_replaces (getitem k d).
Proof. unfold getitem. by destruct (dict_get k d). Qed.

Lemma never_replaces_first {A} (l : list A) : never_replaces (first l).
Proof. by destruct l. Qed.

Lemma never_replaces_as_str v : never_replaces (as_str v).
Proof. by destruct v. Qed.

Lemma never_replaces_as_dict v : never_replaces (as_dict v).
Proof. by destruct v. Qed.

Lemma never_replaces_mapping_get k v : never_replaces (mapping_get k v).
Proof. by destruct v. Qed.

Lemma never_replaces_chdir p : never_replaces (chdir p).
Proof. intros w image. unfold chdir. by case_bool_decide. Qed.

(** One step of a proof that a computation never replaces the process. *)
Ltac never_replaces_step :=
  lazymatch goal with
  | |- never_replaces (mbind _ _) => apply never_replaces_bind; [|intros ?]
  | |- never_replaces (fmap _ _) => apply never_replaces_fmap
  | |- never_replaces (mret _) => apply never_replaces_ret
  | |- never_replaces (raise _) => apply never_replaces_raise
  | |- never_replaces (exception _) => apply never_replaces_raise
  | |- never_replaces (gets _) => apply never_replaces_gets
  | |- never_replaces (modify _) => apply never_replaces_modify
  | |- never_replaces (emit _) => apply never_replaces_modify
  | |- never_replaces (warn _) => apply never_replaces_modify
  | |- never_replaces (info _) => apply never_replaces_modify
  | |- never_replaces (debug _) => apply never_replaces_modify
  | |- never_replaces (lift _) => apply never_replaces_lift
  | |- never_replaces (deref _) => apply never_replaces_deref
  | |- never_replaces (getitem _ _) => apply never_replaces_getitem
  | |- never_replaces (first _) => apply never_replaces_first
  | |- never_replaces (as_str _) => apply never_replaces_as_str
  | |- never_replaces (as_dict _) => apply never_replaces_as_dict
  | |- never_replaces (mapping_get _ _) => apply never_replaces_mapping_get
  | |- never_replaces (chdir _) => apply never_replaces_chdir
  | |- never_replaces (map_M _ _) => apply never_replaces_map_M; intros ?
  | |- never_replaces (match ?x with _ => _ end) => destruct x
  | |- never_replaces (if ?b then _ else _) => destruct b
  end.

Lemma never_replaces_executor_format_vars {lib : PyLib} state_dir config service rest :
  never_replaces (call_service_format_vars (ProcessExecutor.new state_dir) config service rest).
Proof.
  unfold call_service_format_vars.
  destruct rest as [|? [|? [|? ?]]]; try apply never_replaces_raise.
  unfold _service_format_vars, _service_environment, base_service_default_path. simpl.
  unfold ProcessExecutor._service_environment_formatter, ProcessExecutor.format_value,
    base_service_default_path.
  repeat never_replaces_step.
Qed.

(** Invert the first computation of a bind that ended in a replaced
    process, when that computation cannot replace the process itself. *)
Ltac inv_replaced H w1 a E :=
  apply bind_Replaced_inv in H as [H|(w1 & a & E & H)];
  [ exfalso;
    lazymatch type of H with
    | ?m ?w = _ =>
        let Hnr := fresh "Hnr" in
        assert (never_replaces m) as Hnr
          by first [apply never_replaces_executor_format_vars
                   | repeat never_replaces_step];
        exact (Hnr _ _ (f_equal snd H))
    end
  | ].

Lemma assign_service_command_style_run config style c w :
  heap w !! config = Some c →
  ProcessExecutor.assign_service_command_style config style w
  = (set_heap (<[config := Config.set_service_command_style style c]> (heap w)) w, Ret tt).
Proof.
  intros Hc. unfold ProcessExecutor.assign_service_command_style.
  by erewrite bind_Ret by (by apply deref_Some).
Qed.

Lemma dict_get_fmap_values {V W} (g : V → W) k (d : dict V) :
  dict_get k ((λ kv : string * V, (kv.1, g kv.2)) <$> d) = g <$> dict_get k d.
Proof.
  induction d as [|[k' v] d IH]; [done|]. simpl. by destruct (decide (k = k')).
Qed.

Lemma dict_keys_fmap_values {V W} (g : V → W) (d : dict V) :
  dict_keys ((λ kv : string * V, (kv.1, g kv.2)) <$> d) = dict_keys d.
Proof. unfold dict_keys. rewrite <-list_fmap_compose. done. Qed.

Lemma pure_world {A} (m : M A) w w' a :
  keeps (λ w, w) m → m w = (w', Ret a) → w' = w.
Proof. intros Hm Hrun. specialize (Hm w). by rewrite Hrun in Hm. Qed.

(** X21: when exec replaces the process, the new process runs in the
    Galaxy root directory of the config, its program is the first word of
    the command line it is given, and every variable of the inherited
    environment reaches it with its inherited value, also when the resolved
    environment of the service has the same variable; no file is touched
    on the way. *)
Theorem exec_replaces_process {lib : PyLib} (state_dir : string) (config : ConfigRef)
    (c : Config.t) (service : Service.t) (w w' : World) (image : ProcessImage) :
  heap w !! config = Some c →
  NoDup (dict_keys (environ (host w))) →
  ProcessExecutor.exec (ProcessExecutor.new state_dir) config service w
  = (w', Replaced image) →
  cwd w' = Config.galaxy_root c
  ∧ Config.galaxy_root c ∈ dirs w
  ∧ files w' = files w
  ∧ image_argv image !! 0%nat = Some (image_file image)
  ∧ executable (host w) (image_file image) = true
  ∧ ∀ k v, dict_get k (environ (host w)) = Some v →
           dict_get k (image_env image) = Some (VStr v).
Proof.
  intros Hc Hnodup Hrun. unfold ProcessExecutor.exec in Hrun.
  erewrite bind_Ret in Hrun by (by apply assign_service_command_style_run).
  set (w0 := set_heap _ w) in Hrun.
  inv_replaced Hrun w1 format_vars Evars.
  assert (host w1 = host w ∧ files w1 = files w ∧ dirs w1 = dirs w) as (Hhost & Hfiles & Hdirs).
  { pose proof (f_equal fst Evars) as Hw1. simpl in Hw1. rewrite <-Hw1.
    split; [|split].
    - trans (host w0); [|done].
      apply (keeps_service_format_vars host);
        [apply keeps_executor_formatter|apply keeps_base_service_default_path].
    - trans (files w0); [|done].
      apply (keeps_service_format_vars files);
        [apply keeps_executor_formatter|apply keeps_base_service_default_path].
    - trans (dirs w0); [|done].
      apply (keeps_service_format_vars dirs);
        [apply keeps_executor_formatter|apply keeps_base_service_default_path]. }
  apply _service_format_vars_Ret in Evars
    as (c' & url & virtualenv_bin & command_format_vars & command & environment & w2
        & formatted & Hc' & Hurl & Hshape & Hformatted & ->).
  assert (c' = Config.set_service_command_style direct c) as ->.
  { subst w0. simpl in Hc'. rewrite list_lookup_insert_eq in Hc'; [by simplify_eq|].
    by eapply lookup_lt_Some. }
  simpl in Hshape. destruct Hshape as [command_arguments ->].
  inv_replaced Hrun w3 environment' Eenvironment.
  inv_replaced Hrun w4 quoted Equoted.
  inv_replaced Hrun w5 command' Ecommand.
  inv_replaced Hrun w6 cmd Ecmd.
  rewrite bind_gets in Hrun.
  inv_replaced Hrun w7 cwd' Ecwd.
  apply getitem_inv in Ecwd as [-> Hcwd].
  rewrite !dict_get_set_ne in Hcwd by done.
  simpl in Hcwd. injection Hcwd as <-.
  assert (w3 = w1) as -> by (eapply pure_world; [|exact Eenvironment]; keeps_go).
  assert (w4 = w1) as -> by (eapply pure_world; [|exact Equoted]; keeps_go).
  assert (w5 = w1) as -> by (eapply pure_world; [|exact Ecommand]; keeps_go).
  assert (w6 = w1) as -> by (eapply pure_world; [|exact Ecmd]; keeps_go).
  unfold info, emit in Hrun. rewrite !bind_modify in Hrun.
  simpl as_str in Hrun. rewrite bind_ret_l in Hrun.
  rewrite bind_unfold in Hrun. unfold chdir in Hrun.
  case_bool_decide as Hdir; simpl in Hrun. 2:{ discriminate Hrun. } simpl in Hdir. rewrite Hdirs in Hdir.
  destruct cmd as [|file cmd]; [discriminate Hrun|]. simpl in Hrun.
  rewrite bind_ret_l in Hrun. unfold execvpe in Hrun. simpl in Hrun.
  rewrite !Hhost in Hrun.
  destruct (executable (host w) file) eqn:Hexecutable; simpl in Hrun; [|discriminate Hrun].
  injection Hrun as <- <-. simpl.
  repeat split; try done.
  intros k v Hk. unfold dict_union. rewrite dict_get_overridden.
  - by rewrite dict_get_fmap_values, Hk.
  - by rewrite dict_keys_fmap_values.
Qed.

Lemma exec_replaces_process_witness :
  let w := set_dirs {["/srv/galaxy/server"]} (Examples.a_world [Examples.main] ∅ ∅) in
  cwd (ProcessExecutor.exec (lib:=Reference.lib)
         (ProcessExecutor.new (lib:=Reference.lib) "/srv/galaxy/gravity") 0%nat
         Examples.gunicorn w).1
  = "/srv/galaxy/server".
Proof.
  intros w.
  destruct (ProcessExecutor.exec (lib:=Reference.lib)
              (ProcessExecutor.new (lib:=Reference.lib) "/srv/galaxy/gravity") 0%nat
              Examples.gunicorn w) as [w' [a|e|image]] eqn:Hrun.
  - vm_compute in Hrun. discriminate Hrun.
  - vm_compute in Hrun. discriminate Hrun.
  - exact (proj1 (exec_replaces_process (lib:=Reference.lib) "/srv/galaxy/gravity" 0%nat
                    Examples.main Examples.gunicorn w w' image eq_refl
                    ltac:(apply (bool_decide_unpack _); vm_compute; exact I) Hrun)).
Defined.

(** * The dispatch loop, step by step *)

Lemma dispatch_step self func args service_names configs_by_pm w pm_name pm pm_names
    kwargs w1 :
  heap w1 = heap w →
  grouped_configs_registered w configs_by_pm →
  dict_get pm_name (ProcessManagerRouter.process_managers self) = Some pm →
  let kwargs' := passed_kwargs pm func pm_name service_names configs_by_pm kwargs in
  ∃ msg,
    let w2 := add_log (Call (ProcessManagerRouter.name pm) func args kwargs')
                (add_log (Debug msg) w1) in
    ProcessManagerRouter.dispatch self func args service_names configs_by_pm kwargs
      (pm_name :: pm_names) w1
    = match ProcessManagerRouter.raises pm func args kwargs' with
      | Some e => (w2, Raise e)
      | None =>
          ProcessManagerRouter.dispatch self func args service_names configs_by_pm kwargs'
            pm_names w2
      end.
Proof.
  intros Hheap Hvalid Hpm kwargs'. subst kwargs'. unfold passed_kwargs.
  cbn [ProcessManagerRouter.dispatch].
  erewrite bind_Ret by (unfold getitem; by rewrite Hpm).
  set (pm_configs := dict_get_default pm_name [] configs_by_pm).
  assert (Forall (λ r, is_Some (heap w !! r)) pm_configs) as Hconfigs.
  { unfold pm_configs, dict_get_default.
    destruct (dict_get pm_name configs_by_pm) as [l|] eqn:Hl; [by eapply Hvalid|constructor]. }
  destruct (map_M_deref_names w1 w pm_configs Hheap Hconfigs) as [instances Hinst].
  destruct (bool_decide ("configs" ∈ ProcessManagerRouter.argspec pm func)),
    (bool_decide ("service_names" ∈ ProcessManagerRouter.argspec pm func)).
  1,2: eexists; rewrite !bind_assoc; erewrite bind_Ret by exact Hinst;
    rewrite bind_assoc; mstep; mstep;
    unfold ProcessManagerRouter.call_routed; rewrite bind_assoc; mstep;
    destruct (ProcessManagerRouter.raises pm func args _); [|mstep]; reflexivity.
  all: eexists; rewrite !bind_assoc; mstep; mstep;
    unfold ProcessManagerRouter.call_routed; rewrite bind_assoc; mstep;
    destruct (ProcessManagerRouter.raises pm func args _); [|mstep]; reflexivity.
Qed.

(** X22: the dispatch goes from backend to backend and stops at the first
    error: when the method of a backend raises, the backends before it have
    been called, the error is the outcome of the operation, and no backend
    after it is called. *)
Theorem dispatch_stops_at_first_error (self : ProcessManagerRouter.t) (func : string)
    (args : list PyVal) (service_names : list string)
    (configs_by_pm : dict (list ConfigRef)) (w : World)
    (before : list string) (failing : string) (after : list string)
    (pm : ProcessManagerRouter.Backend) (e : Exn) (kwargs : dict KwVal) :
  grouped_configs_registered w configs_by_pm →
  Forall (reachable self func) before →
  dict_get failing (ProcessManagerRouter.process_managers self) = Some pm →
  ProcessManagerRouter.name pm = failing →
  (∀ a k, ProcessManagerRouter.raises pm func a k = Some e) →
  ∃ events,
    ProcessManagerRouter.dispatch self func args service_names configs_by_pm kwargs
      (before ++ failing :: after) w
    = (emit_all events w, Raise e)
    ∧ (∃ kw, last events = Some (Call failing func args kw))
    ∧ (∀ n, n ∈ before → calls_to n events ≠ [])
    ∧ (∀ n, n ∉ before → n ≠ failing → calls_to n events = []).
Proof.
  intros Hvalid Hbefore Hpm Hname Hraises.
  enough (∀ kwargs w1, heap w1 = heap w →
            ∃ events,
              ProcessManagerRouter.dispatch self func args service_names configs_by_pm kwargs
                (before ++ failing :: after) w1
              = (emit_all events w1, Raise e)
              ∧ (∃ kw, last events = Some (Call failing func args kw))
              ∧ (∀ n, n ∈ before → calls_to n events ≠ [])
              ∧ (∀ n, n ∉ before → n ≠ failing → calls_to n events = []))
    as Hgen by (by apply Hgen).
  clear kwargs. induction Hbefore as [|pm_name before (pm' & Hpm' & Hname' & Hraises') _ IH];
    intros kwargs w1 Hheap.
  - destruct (dispatch_step self func args service_names configs_by_pm w failing pm after
                kwargs w1 Hheap Hvalid Hpm) as [msg Hstep].
    simpl in Hstep. rewrite Hraises, Hname in Hstep.
    eexists [Debug msg; Call failing func args _]. split; [exact Hstep|].
    split; [by eexists|]. split; [by intros n ?%not_elem_of_nil|].
    intros n _ Hn. unfold calls_to.
    rewrite filter_cons_False by (by intros []).
    rewrite filter_cons_False by (simpl; congruence). done.
  - destruct (dispatch_step self func args service_names configs_by_pm w pm_name pm'
                (before ++ failing :: after) kwargs w1 Hheap Hvalid Hpm') as [msg Hstep].
    simpl in Hstep. rewrite Hraises', Hname' in Hstep.
    match type of Hstep with
    | _ = ProcessManagerRouter.dispatch _ _ _ _ _ ?kw _ ?w2 =>
        destruct (IH kw w2) as (events & Hrun & [kwf Hlast] & Hcalled & Hcalls); [done|]
    end.
    eexists (Debug msg :: Call pm_name func args _ :: events).
    split; [simpl; rewrite Hstep; exact Hrun|].
    split; [|split].
    + exists kwf. rewrite !last_cons, Hlast. done.
    + intros n [->|Hin]%elem_of_cons; unfold calls_to.
      * rewrite filter_cons_False by (by intros []).
        by rewrite filter_cons_True by done.
      * rewrite filter_cons_False by (by intros []).
        destruct (decide (is_call_to n (Call pm_name func args
                    (passed_kwargs pm' func pm_name service_names configs_by_pm kwargs))));
          [by rewrite filter_cons_True|].
        rewrite filter_cons_False by done. by apply Hcalled.
    + intros n [Hne Hnot]%not_elem_of_cons Hn. unfold calls_to.
      rewrite filter_cons_False by (by intros []).
      rewrite filter_cons_False by (simpl; congruence). by apply Hcalls.
Qed.

Lemma dispatch_stops_at_first_error_witness :
  let w := Examples.a_world [Examples.main; Examples.test] ∅ ∅ in
  let self := ProcessManagerRouter.new (lib:=Reference.lib) "/srv/galaxy/gravity"
                [Examples.a_failing_backend "systemd" (Fatal "systemd is not running");
                 Examples.a_backend "supervisor"] in
  ∃ events,
    ProcessManagerRouter.dispatch self "start" [] []
      [("systemd", [0%nat]); ("supervisor", [1%nat])] [] ["systemd"; "supervisor"] w
    = (emit_all events w, Raise (Fatal "systemd is not running"))
    ∧ calls_to "supervisor" events = [].
Proof.
  intros w self.
  destruct (dispatch_stops_at_first_error self "start" [] []
              [("systemd", [0%nat]); ("supervisor", [1%nat])] w [] "systemd" ["supervisor"]
              (Examples.a_failing_backend "systemd" (Fatal "systemd is not running"))
              (Fatal "systemd is not running") [])
    as (events & Hrun & _ & _ & Hcalls).
  - intros pm l Hl. simpl in Hl. repeat case_decide; simplify_eq;
      repeat constructor; by eexists.
  - constructor.
  - reflexivity.
  - reflexivity.
  - reflexivity.
  - exists events. split; [exact Hrun|]. apply Hcalls; [by intros ?%not_elem_of_nil|done].
Defined.

(** X23: the dispatch loop keeps one dictionary of keyword arguments for
    all backends, so what it sets for one backend stays for the next: a
    backend whose method declares no configs parameter, dispatched right
    after one whose method declares it, is handed the configs of that
    earlier backend. *)
Theorem keyword_arguments_carry_over (self : ProcessManagerRouter.t) (func : string)
    (args : list PyVal) (service_names : list string)
    (configs_by_pm : dict (list ConfigRef)) (w : World)
    (earlier later : string) (rest : list string)
    (pm1 pm2 : ProcessManagerRouter.Backend) (kwargs : dict KwVal) :
  grouped_configs_registered w configs_by_pm →
  dict_get earlier (ProcessManagerRouter.process_managers self) = Some pm1 →
  dict_get later (ProcessManagerRouter.process_managers self) = Some pm2 →
  (∀ a k, ProcessManagerRouter.raises pm1 func a k = None) →
  "configs" ∈ ProcessManagerRouter.argspec pm1 func →
  "configs" ∉ ProcessManagerRouter.argspec pm2 func →
  ∃ kwargs2 w2,
    dict_get "configs" kwargs2 = Some (KConfigs (dict_get_default earlier [] configs_by_pm))
    ∧ last (log w2) = Some (Call (ProcessManagerRouter.name pm2) func args kwargs2)
    ∧ ProcessManagerRouter.dispatch self func args service_names configs_by_pm kwargs
        (earlier :: later :: rest) w
      = match ProcessManagerRouter.raises pm2 func args kwargs2 with
        | Some e => (w2, Raise e)
        | None =>
            ProcessManagerRouter.dispatch self func args service_names configs_by_pm
              kwargs2 rest w2
        end.
Proof.
  intros Hvalid Hpm1 Hpm2 Hraises Hdeclared Hundeclared.
  destruct (dispatch_step self func args service_names configs_by_pm w earlier pm1
              (later :: rest) kwargs w eq_refl Hvalid Hpm1) as [msg1 Hstep1].
  cbv zeta in Hstep1. rewrite Hraises in Hstep1.
  match type of Hstep1 with
  | _ = ProcessManagerRouter.dispatch _ _ _ _ _ ?kw _ ?w1 =>
      destruct (dispatch_step self func args service_names configs_by_pm w later pm2
                  rest kw w1 eq_refl Hvalid Hpm2) as [msg2 Hstep2]
  end.
  cbv zeta in Hstep2. eexists _, _. split; [|split; [|rewrite Hstep1; exact Hstep2]].
  - unfold passed_kwargs.
    rewrite (bool_decide_eq_false_2 ("configs" ∈ ProcessManagerRouter.argspec pm2 func))
      by done.
    rewrite (bool_decide_eq_true_2 ("configs" ∈ ProcessManagerRouter.argspec pm1 func))
      by done.
    repeat case_bool_decide; rewrite ?dict_get_set_ne by done; apply dict_get_set_eq.
  - simpl. by rewrite last_snoc.
Qed.

Lemma keyword_arguments_carry_over_witness :
  let w := Examples.a_world [Examples.main; Examples.test] ∅ ∅ in
  let self := ProcessManagerRouter.new (lib:=Reference.lib) "/srv/galaxy/gravity"
                [Examples.a_backend "systemd"; Examples.a_plain_backend "supervisor"] in
  (ProcessManagerRouter.dispatch self "start" [] []
     [("systemd", [0%nat]); ("supervisor", [1%nat])] [] ["systemd"; "supervisor"] w).1
  = emit_all
      [Debug "Calling start in process manager systemd for instances: ['main']";
       Call "systemd" "start" [] [("configs", KConfigs [0%nat]); ("service_names", KNames [])];
       Debug "Calling start in process manager supervisor for all instances";
       Call "supervisor" "start" []
         [("configs", KConfigs [0%nat]); ("service_names", KNames [])]] w.
Proof.
  intros w self.
  destruct (keyword_arguments_carry_over self "start" [] []
              [("systemd", [0%nat]); ("supervisor", [1%nat])] w "systemd" "supervisor" []
              (Examples.a_backend "systemd") (Examples.a_plain_backend "supervisor") [])
    as (kwargs2 & w2 & _ & _ & Hrun).
  - intros pm l Hl. simpl in Hl. repeat case_decide; simplify_eq;
      repeat constructor; by eexists.
  - reflexivity.
  - reflexivity.
  - reflexivity.
  - apply (bool_decide_unpack _). vm_compute. exact I.
  - vm_compute. intros Hin. by apply elem_of_nil in Hin.
  - clear Hrun. vm_compute. reflexivity.
Defined.

(** * Loading the backends *)



(** * The command exec *)


(** * Cleaning *)





(** * Regeneration *)





(** * exec over a registry of one instance *)

(** X28: over a registry of a single instance, exec needs no instance
    name: with at most one instance token and exactly one service token it
    hands the only config and its service of that name to the executor, or
    fails naming the configured services when the config has no such
    service; with two or more instance tokens it fails even though only one
    instance exists. *)
Theorem exec_in_a_single_instance_registry {lib : PyLib} (VALID_SERVICE_NAMES : gset string)
    (self : ProcessManagerRouter.t) (names : option (list string)) (c : Config.t)
    (w : World) :
  heap w = [c] →
  let tokens := from_option id [] names in
  let instance_tokens := filter (is_instance_token w) tokens in
  let service_tokens := filter (is_service_token VALID_SERVICE_NAMES w) tokens in
  let w0 := emit_all (unknown_name <$> filter (is_unmatched VALID_SERVICE_NAMES w) tokens) w in
  let service_list := str_join ", " (Service.service_name <$> Config.services c) in
  let r := ProcessManagerRouter.exec VALID_SERVICE_NAMES self names w in
  ((length instance_tokens ≤ 1)%nat → ∀ s, service_tokens = [s] →
   r = match list_find (λ service, Service.service_name service = s) (Config.services c) with
       | Some (_, service) =>
           ProcessExecutor.exec (ProcessManagerRouter._process_executor self) 0%nat service w0
       | None => (w0, Raise (service_not_configured s service_list))
       end)
  ∧ ((1 < length instance_tokens)%nat → r = (w0, Raise only_one_instance)).
Proof.
  intros Hheap tokens instance_tokens service_tokens w0 service_list r. subst r.
  unfold ProcessManagerRouter.exec.
  pose proof (_instance_service_names_spec VALID_SERVICE_NAMES names w) as Hspec.
  cbv zeta in Hspec. fold tokens in Hspec. fold instance_tokens in Hspec.
  fold service_tokens in Hspec. fold w0 in Hspec.
  assert (heap w0 = heap w) as Hw0 by apply heap_emit_all.
  assert (instance_tokens = filter (is_instance_token w) tokens) as Hinstances by done.
  clearbody instance_tokens w0.
  split.
  - intros Hlen s Hs. rewrite Hs in Hspec.
    rewrite bool_decide_eq_false_2 in Hspec by (by intros (_ & _ & ?)).
    erewrite bind_Ret by exact Hspec. cbv beta match. mstep.
    rewrite Hw0, Hheap. rewrite (bool_decide_eq_true_2 (length [c] = 1%nat)) by done.
    rewrite andb_true_r.
    assert ((ConfigManager.get_registered_configs
               (match instance_tokens with [] => None | _ => Some instance_tokens end)
               ≫= first) w0 = (w0, Ret 0%nat)) as Hconfig.
    { unfold ConfigManager.get_registered_configs. rewrite bind_gets, Hw0, Hheap.
      destruct instance_tokens as [|i [|i' rest]]; [done| |simpl in Hlen; lia].
      assert (i ∈ filter (is_instance_token w) tokens) as Hin by (rewrite <-Hinstances; left).
      apply list_elem_of_filter in Hin as [Hin _].
      unfold is_instance_token, registered_names in Hin. rewrite Hheap in Hin.
      apply list_elem_of_singleton in Hin as ->. simpl.
      rewrite bool_decide_eq_true_2 by left. done. }
    destruct instance_tokens as [|i [|i' rest]]; [| |simpl in Hlen; lia].
    + rewrite (bool_decide_eq_true_2 (length [] = 0%nat)) by done. mstep.
      erewrite bind_Ret by exact Hconfig.
      erewrite bind_Ret by (apply deref_Some; by rewrite Hw0, Hheap).
      fold service_list.
      rewrite ?(bool_decide_eq_true_2 (length [s] = 1%nat)) by done. cbn [negb]. mstep. mstep.
      pose proof (filter_find (λ service, Service.service_name service = s)
                    (Config.services c)) as Hf.
      destruct (list_find _ (Config.services c)) as [[k service]|].
      * destruct Hf as [rest' Hf]. rewrite Hf.
        rewrite bool_decide_eq_false_2 by done. mstep. mstep. done.
      * rewrite Hf. rewrite bool_decide_eq_true_2 by done. done.
    + rewrite (bool_decide_eq_false_2 (length [i] = 0%nat)) by done.
      rewrite (bool_decide_eq_true_2 (length [i] = 1%nat)) by done. cbn [negb]. mstep.
      erewrite bind_Ret by exact Hconfig.
      erewrite bind_Ret by (apply deref_Some; by rewrite Hw0, Hheap).
      fold service_list.
      rewrite ?(bool_decide_eq_true_2 (length [s] = 1%nat)) by done. cbn [negb]. mstep. mstep.
      pose proof (filter_find (λ service, Service.service_name service = s)
                    (Config.services c)) as Hf.
      destruct (list_find _ (Config.services c)) as [[k service]|].
      * destruct Hf as [rest' Hf]. rewrite Hf.
        rewrite bool_decide_eq_false_2 by done. mstep. mstep. done.
      * rewrite Hf. rewrite bool_decide_eq_true_2 by done. done.
  - intros Hlen.
    rewrite bool_decide_eq_false_2 in Hspec
      by (intros (_ & Hnil & _); rewrite Hnil in Hlen; simpl in Hlen; lia).
    erewrite bind_Ret by exact Hspec. cbv beta match. mstep.
    rewrite (bool_decide_eq_false_2 (length instance_tokens = 0%nat)) by lia.
    rewrite andb_false_l.
    rewrite (bool_decide_eq_false_2 (length instance_tokens = 1%nat)) by lia.
    reflexivity.
Qed.

Lemma exec_in_a_single_instance_registry_witness :
  let w := Examples.a_world [Examples.main] ∅ ∅ in
  ProcessManagerRouter.exec (lib:=Reference.lib) ∅ Examples.a_router (Some ["celery"]) w
  = ProcessExecutor.exec (lib:=Reference.lib)
      (ProcessManagerRouter._process_executor Examples.a_router) 0%nat Examples.celery w.
Proof.
  intros w.
  exact (proj1 (exec_in_a_single_instance_registry (lib:=Reference.lib) ∅ Examples.a_router
                  (Some ["celery"]) Examples.main w eq_refl)
           ltac:(vm_compute; lia) "celery" ltac:(vm_compute; reflexivity)).
Defined.

(** * What a pass over a config never does *)

Lemma keeps_bind_returned {X A B} (proj : World → X) (m : M A) (f : A → M B) :
  keeps proj m →
  (∀ a, (∃ w w', m w = (w', Ret a)) → keeps proj (f a)) →
  keeps proj (m ≫= f).
Proof.
  intros Hm Hf w. rewrite bind_unfold. specialize (Hm w).
  destruct (m w) as [w1 [a|e|image]] eqn:Hrun; simpl in *; [|done..].
  rewrite <-Hm. apply Hf. eauto.
Qed.

Lemma keeps_systemctl_calls_emit e :
  (∀ argv, e ≠ Systemctl argv) → keeps systemctl_calls (emit e).
Proof.
  intros He. apply keeps_emit. intros w. rewrite systemctl_calls_add_log.
  destruct e; rewrite ?app_nil_r; try done. by destruct (He argv).
Qed.

Lemma keeps_systemctl_calls_update_file path contents name file_type :
  keeps systemctl_calls (_update_file path contents name file_type).
Proof.
  unfold _update_file, _file_needs_update, write_file, info, debug.
  repeat first
    [ keeps_step
    | apply keeps_systemctl_calls_emit; intros; discriminate
    | apply keeps_modify; intros w; unfold systemctl_calls; simpl;
      rewrite omap_app; simpl; by rewrite app_nil_r
    | lazymatch goal with
      | |- keeps _ (if ?b then _ else _) => destruct b
      end ].
Qed.

Lemma _update_file_value path contents name file_type w w' v :
  _update_file path contents name file_type w = (w', Ret v) → v = VNone.
Proof.
  unfold _update_file. intros Hrun.
  inv_bind Hrun w1 present Epresent. inv_bind Hrun w2 differs Ediffers.
  destruct (differs || negb present).
  - inv_bind Hrun w3 u Einfo. inv_bind Hrun w4 u' Ewrite. by apply mret_inv in Hrun as [_ ->].
  - inv_bind Hrun w3 u Edebug. by apply mret_inv in Hrun as [_ ->].
Qed.

Lemma keeps_systemctl_calls_render {lib : PyLib} self config service systemd_service :
  keeps systemctl_calls
    (SystemdProcessManager.render_service self config service systemd_service).
Proof.
  unfold SystemdProcessManager.render_service, call_service_format_vars, warn,
    SystemdProcessManager.__systemd_unit_dir.
  repeat first
    [ keeps_step
    | apply keeps_systemctl_calls_emit; intros; discriminate
    | lazymatch goal with
      | |- keeps _ (if ?b then _ else _) => destruct b
      end ].
Qed.

Lemma keeps_systemctl_calls_services {lib : PyLib} self config c clean services :
  ∀ intended units,
  keeps systemctl_calls
    (SystemdProcessManager.process_services self config c clean intended units services).
Proof.
  induction services as [|service services IH]; intros intended units; [apply keeps_ret|].
  cbn [SystemdProcessManager.process_services]. cbv beta zeta. destruct clean.
  - apply keeps_bind; [apply keeps_gets|]. intros unit_dir. apply IH.
  - apply keeps_bind; [|intros conf; apply IH].
    unfold SystemdProcessManager.__update_service.
    apply keeps_bind; [apply keeps_systemctl_calls_render|]. intros [conf contents].
    apply keeps_bind; [apply keeps_systemctl_calls_update_file|]. intros _. apply keeps_ret.
Qed.

(** X29: a pass over a config never runs the control utility, whatever the
    config, the mode and the state of the files: in particular a target is
    never enabled, not even one the pass has just written, because what
    _update_file returns is None and never true. *)
Theorem process_config_runs_no_command {lib : PyLib} (self : SystemdProcessManager.t)
    (config : ConfigRef) (clean : bool) (w : World) :
  systemctl_calls (SystemdProcessManager._process_config self config clean w).1
  = systemctl_calls w.
Proof.
  revert w. change (keeps systemctl_calls
                      (SystemdProcessManager._process_config self config clean)).
  unfold SystemdProcessManager._process_config.
  apply keeps_bind; [apply keeps_gets|]. intros unit_dir.
  apply keeps_bind.
  { unfold SystemdProcessManager.makedirs_exist_ok. apply keeps_modify. intros w.
    case_bool_decide; [done|]. rewrite systemctl_calls_add_log. simpl.
    by rewrite app_nil_r. }
  intros _. apply keeps_bind; [apply keeps_deref|]. intros c.
  apply keeps_bind; [apply keeps_systemctl_calls_services|]. intros [intended units].
  apply keeps_bind; [apply keeps_lift|]. intros contents.
  apply keeps_bind_returned.
  { destruct clean; simpl; [apply keeps_ret|apply keeps_systemctl_calls_update_file]. }
  intros updated (w1 & w2 & Hupdated).
  assert (py_truthy updated = false) as ->.
  { destruct clean; simpl in Hupdated.
    - by apply mret_inv in Hupdated as [_ ->].
    - by apply _update_file_value in Hupdated as ->. }
  apply keeps_bind; [apply keeps_ret|]. intros _. apply keeps_ret.
Qed.
